(** * A shallow embedding of [app/parse.py]

    The scraper drives a Selenium session through listing pages, clicks the
    "load more" control until it disappears, parses every product card and
    writes the records to CSV files.  The browser and the markup parser are
    external collaborators: the browser is modelled as an arbitrary state
    machine behind the [WebDriver] interface, the markup parser as the
    selections it returns for a card.  Python's exceptions, [str.split],
    [str.replace], [int] and [float] are modelled as far as the scraper
    uses them. *)

From Stdlib Require Import ZArith NArith Ascii String List Lia.
From Stdlib Require Floats.SpecFloat.
From stdpp Require Import base option list gmap strings.

Local Open Scope Z_scope.

(** ** Python values, exceptions and results *)

Module Py.

(** The exception classes that matter to [parse.py]: Selenium's hierarchy
    below [WebDriverException], the builtin errors that the parsing
    expressions raise, and [KeyboardInterrupt] as a representative of what
    lies outside [Exception]. *)
Inductive exc_class : Type :=
  | BaseException
  | KeyboardInterrupt
  | Exception
  | TypeError
  | LookupError
  | KeyError
  | IndexError
  | ValueError
  | AttributeError
  | WebDriverException
  | NoSuchElementException
  | InvalidElementStateException
  | ElementNotInteractableException
  | ElementClickInterceptedException
  | StaleElementReferenceException
  | TimeoutException.

#[global] Instance exc_class_eq_dec : EqDecision exc_class.
Proof. solve_decision. Defined.

(** The direct base class, as declared by Python and by
    [selenium.common.exceptions]. *)
Definition base_of (c : exc_class) : option exc_class :=
  match c with
  | BaseException => None
  | KeyboardInterrupt => Some BaseException
  | Exception => Some BaseException
  | TypeError | LookupError | ValueError | AttributeError => Some Exception
  | KeyError | IndexError => Some LookupError
  | WebDriverException => Some Exception
  | NoSuchElementException => Some WebDriverException
  | InvalidElementStateException => Some WebDriverException
  | ElementNotInteractableException => Some InvalidElementStateException
  | ElementClickInterceptedException => Some WebDriverException
  | StaleElementReferenceException => Some WebDriverException
  | TimeoutException => Some WebDriverException
  end.

(** [subclass_fuel n c k]: [k] is reached from [c] in at most [n] steps up
    the hierarchy. *)
Fixpoint subclass_fuel (n : nat) (c k : exc_class) : bool :=
  if decide (c = k) then true
  else match n with
       | O => false
       | S n' => match base_of c with
                 | Some b => subclass_fuel n' b k
                 | None => false
                 end
       end.

(** The hierarchy is four levels deep. *)
Definition issubclass (c k : exc_class) : bool := subclass_fuel 4 c k.

(** A raised exception: its class and [str(e)]. *)
Record exn : Type := mk_exn { exn_class : exc_class; exn_str : string }.

(** [isinstance(e, k)], the test an [except k] clause performs. *)
Definition isinstance (e : exn) (k : exc_class) : bool :=
  issubclass (exn_class e) k.

Inductive result (A : Type) : Type :=
  | Ok (a : A)
  | Raise (e : exn).
Arguments Ok {A} a.
Arguments Raise {A} e.

Definition is_ok {A} (r : result A) : bool :=
  match r with Ok _ => true | Raise _ => false end.

(** Values a DOM property can take through [get_property]. *)
Inductive pyval : Type :=
  | PyNone
  | PyBool (b : bool)
  | PyStr (s : string).

#[global] Instance pyval_eq_dec : EqDecision pyval.
Proof. solve_decision. Defined.

#[global] Instance pyval_countable : Countable pyval.
Proof.
  refine (inj_countable'
    (fun v => match v with
              | PyNone => inl ()
              | PyBool b => inr (inl b)
              | PyStr s => inr (inr s)
              end)
    (fun x => match x with
              | inl _ => PyNone
              | inr (inl b) => PyBool b
              | inr (inr s) => PyStr s
              end) _).
  by intros [].
Defined.

(** Python truthiness, as used by [not v] and [if v]. *)
Definition truthy (v : pyval) : bool :=
  match v with
  | PyNone => false
  | PyBool b => b
  | PyStr s => negb (String.eqb s "")
  end.

(** *** Strings

    A [str] is modelled by its UTF-8 encoding, a [string] of bytes, and its
    characters are the code points read off it.  A byte string that is not
    UTF-8 models no [str]; [decode_utf8] gives each of its stray bytes a
    code point of its own, which is neither whitespace nor a digit. *)

Definition chars (s : string) : list ascii := list_ascii_of_string s.

Definition code (c : ascii) : N := N_of_ascii c.

Definition continuation (c : ascii) : bool :=
  ((128 <=? code c) && (code c <? 192))%N.

Definition low6 (c : ascii) : N := (code c - 128)%N.

(** The code point a byte that belongs to no UTF-8 sequence stands for. *)
Definition stray (c : ascii) : N := (56320 + code c)%N.

Fixpoint decode_utf8 (l : list ascii) : list N :=
  match l with
  | [] => []
  | b0 :: l1 =>
      let n0 := code b0 in
      if (n0 <? 128)%N then n0 :: decode_utf8 l1
      else
        match l1 with
        | [] => [stray b0]
        | b1 :: l2 =>
            if ((194 <=? n0) && (n0 <? 224))%N then
              if continuation b1 then
                ((n0 - 192) * 64 + low6 b1)%N :: decode_utf8 l2
              else stray b0 :: decode_utf8 l1
            else
              match l2 with
              | [] => stray b0 :: decode_utf8 l1
              | b2 :: l3 =>
                  if ((224 <=? n0) && (n0 <? 240))%N then
                    if continuation b1 && continuation b2 then
                      (((n0 - 224) * 64 + low6 b1) * 64 + low6 b2)%N
                      :: decode_utf8 l3
                    else stray b0 :: decode_utf8 l1
                  else
                    match l3 with
                    | [] => stray b0 :: decode_utf8 l1
                    | b3 :: l4 =>
                        if ((240 <=? n0) && (n0 <? 245))%N
                           && continuation b1 && continuation b2
                           && continuation b3 then
                          ((((n0 - 240) * 64 + low6 b1) * 64 + low6 b2) * 64
                           + low6 b3)%N :: decode_utf8 l4
                        else stray b0 :: decode_utf8 l1
                    end
              end
        end
  end.

(** The characters of a [str]. *)
Definition points (s : string) : list N := decode_utf8 (chars s).

(** [str.isspace] of one character (Unicode 14, as CPython 3.11 has it):
    what [str.split()] splits on. *)
Definition is_space (n : N) : bool :=
  ((9 <=? n) && (n <=? 13) || (28 <=? n) && (n <=? 32)
   || (n =? 133) || (n =? 160) || (n =? 5760)
   || (8192 <=? n) && (n <=? 8202)
   || (n =? 8232) || (n =? 8233) || (n =? 8239) || (n =? 8287)
   || (n =? 12288))%N.

(** The first code points of the blocks of ten decimal digits (Unicode 14):
    a block holds the digits 0 to 9 in order. *)
Definition decimal_blocks : list N :=
  [48; 1632; 1776; 1984; 2406; 2534; 2662; 2790; 2918; 3046; 3174; 3302;
   3430; 3558; 3664; 3792; 3872; 4160; 4240; 6112; 6160; 6470; 6608; 6784;
   6800; 6992; 7088; 7232; 7248; 42528; 43216; 43264; 43472; 43504; 43600;
   44016; 65296; 66720; 68912; 69734; 69872; 69942; 70096; 70384; 70736;
   70864; 71248; 71360; 71472; 71904; 72016; 72784; 73040; 73120; 92768;
   92864; 93008; 120782; 120792; 120802; 120812; 120822; 123200; 123632;
   125264; 130032]%N.

(** The decimal value of a character, if it is a decimal digit. *)
Definition to_decimal (n : N) : option N :=
  match List.find (fun b => (b <=? n) && (n <? b + 10))%N decimal_blocks with
  | Some b => Some (n - b)%N
  | None => None
  end.

(** C's whitespace, which [int] and [float] skip around a number: the
    space, TAB, LF, VT, FF and CR. *)
Definition c_space (n : N) : bool :=
  ((n =? 32) || (9 <=? n) && (n <=? 13))%N.

(** The digits [0] to [9]. *)
Definition is_digit (n : N) : bool := ((48 <=? n) && (n <=? 57))%N.

Definition digit_val (n : N) : N := (n - 48)%N.

(** The value of a run of decimal digits, most significant first. *)
Definition dec_value (ds : list N) : N :=
  fold_left (fun acc c => (10 * acc + digit_val c)%N) ds 0%N.

Fixpoint drop_while {A} (p : A -> bool) (l : list A) : list A :=
  match l with
  | [] => []
  | x :: l' => if p x then drop_while p l' else l
  end.

Fixpoint take_while {A} (p : A -> bool) (l : list A) : list A :=
  match l with
  | [] => []
  | x :: l' => if p x then x :: take_while p l' else []
  end.

(** [s.split()]: the maximal runs of non-whitespace characters.  [cur]
    holds the current run, reversed. *)
Fixpoint split_from (cur : list N) (l : list N) : list (list N) :=
  match l with
  | [] => match cur with [] => [] | _ => [rev cur] end
  | c :: l' =>
      if is_space c then
        match cur with
        | [] => split_from [] l'
        | _ => rev cur :: split_from [] l'
        end
      else split_from (c :: cur) l'
  end.

Definition split (l : list N) : list (list N) := split_from [] l.

(** [s.replace(old, new)] for a one-character ASCII [old], on the bytes of
    [s]: no byte of a longer UTF-8 sequence is an ASCII byte. *)
Fixpoint replace1 (old : ascii) (new : list ascii) (l : list ascii)
  : list ascii :=
  match l with
  | [] => []
  | c :: l' =>
      if decide (c = old) then new ++ replace1 old new l'
      else c :: replace1 old new l'
  end.

(** What [int] and [float] make of a string before they parse it: an ASCII
    string is taken as it is; in any other, whitespace above 126 becomes a
    space and a decimal digit its ASCII digit, and the string is cut at the
    first other character above 126, which becomes a question mark. *)
Fixpoint to_ascii (l : list N) : list N :=
  match l with
  | [] => []
  | c :: l' =>
      if (c <? 127)%N then c :: to_ascii l'
      else if is_space c then 32%N :: to_ascii l'
      else match to_decimal c with
           | Some d => (48 + d)%N :: to_ascii l'
           | None => [63%N]
           end
  end.

Definition transform (l : list N) : list N :=
  if forallb (fun c => (c <? 128)%N) l then l else to_ascii l.

(** Skipping C whitespace at both ends. *)
Definition strip (l : list N) : list N :=
  rev (drop_while c_space (rev (drop_while c_space l))).

(** Underscores in a [float] literal: allowed only between two digits.
    Returns the text without them, or [None] when one is misplaced.
    [prev] is the previous character, if any. *)
Fixpoint drop_underscores (prev : option N) (l : list N)
  : option (list N) :=
  match l with
  | [] => match prev with
          | Some p => if (p =? 95)%N then None else Some []
          | None => Some []
          end
  | c :: l' =>
      let prev_digit := match prev with
                        | Some p => is_digit p
                        | None => false
                        end in
      let prev_us := match prev with
                     | Some p => (p =? 95)%N
                     | None => false
                     end in
      if (c =? 95)%N then
        if prev_digit then drop_underscores (Some c) l' else None
      else if prev_us && negb (is_digit c) then None
      else option_map (cons c) (drop_underscores (Some c) l')
  end.

(** An optional sign: [(negative, rest)]. *)
Definition take_sign (l : list N) : bool * list N :=
  match l with
  | c :: l' =>
      if (c =? 45)%N then (true, l')
      else if (c =? 43)%N then (false, l')
      else (false, l)
  | [] => (false, [])
  end.

Definition all_digits (l : list N) : bool := forallb is_digit l.

Definition value_error (what : string) : exn := mk_exn ValueError what.

Definition invalid_literal : exn :=
  value_error "invalid literal for int() with base 10".

(** [sys.int_max_str_digits], at its default. *)
Definition int_max_str_digits : nat := 4300.

Definition too_many_digits : exn :=
  value_error "Exceeds the limit (4300 digits) for integer string conversion".

Definition digit_or_underscore (c : N) : bool := is_digit c || (c =? 95)%N.

(** A run of digits and underscores is well grouped when no underscore
    stands first, last or next to another one. *)
Fixpoint well_grouped (prev : option N) (run : list N) : bool :=
  match run with
  | [] => match prev with Some p => negb (p =? 95)%N | None => true end
  | c :: run' =>
      if (c =? 95)%N then
        match prev with
        | Some p => negb (p =? 95)%N && well_grouped (Some c) run'
        | None => false
        end
      else well_grouped (Some c) run'
  end.

(** [int(s)] for a string argument, base 10. *)
Definition py_int (l : list N) : result Z :=
  let '(neg, body) := take_sign (drop_while c_space (transform l)) in
  let run := take_while digit_or_underscore body in
  let rest := drop_while digit_or_underscore body in
  if negb (well_grouped None run) then Raise invalid_literal
  else
    let ds := List.filter is_digit run in
    if (int_max_str_digits <? length ds)%nat then Raise too_many_digits
    else
      match run, drop_while c_space rest with
      | _ :: _, [] =>
          let v := Z.of_N (dec_value ds) in
          Ok (if neg then - v else v)
      | _, _ => Raise invalid_literal
      end.

(** A [float] is a binary64 number. *)
Definition pyfloat : Type := SpecFloat.spec_float.

#[global] Instance pyfloat_eq_dec : EqDecision pyfloat.
Proof. unfold pyfloat. solve_decision. Defined.

(** The binary64 number nearest to [(-1)^neg * m * 10^e], ties to the even
    mantissa: what a decimal literal evaluates to.  Beyond the largest
    finite number it is an infinity.  The two tests on [e] only spare the
    computation of powers of ten that cannot change the outcome: from
    [10^309] on every number overflows, and below [10^-325] every number
    rounds to zero. *)
Definition float_of_decimal (neg : bool) (m : N) (e : Z) : pyfloat :=
  match m with
  | N0 => SpecFloat.S754_zero neg
  | Npos p =>
      if 309 <=? e then SpecFloat.S754_infinity neg
      else if Z.of_N (N.size m) + e <=? -325 then SpecFloat.S754_zero neg
      else if 0 <=? e then
        SpecFloat.binary_round 53 1024 neg (Z.to_pos (Zpos p * 10 ^ e)) 0
      else
        let '(q, e', l) :=
          SpecFloat.SFdiv_core_binary 53 1024 (Zpos p) 0 (10 ^ (- e)) 0 in
        SpecFloat.binary_round_aux 53 1024 neg q e' l
  end.

Definition lower (c : N) : N :=
  if ((65 <=? c) && (c <=? 90))%N then (c + 32)%N else c.

Definition span_digits (l : list N) : list N * list N :=
  (take_while is_digit l, drop_while is_digit l).

(** The exponent part: empty, or [e]/[E], an optional sign and digits. *)
Definition parse_exponent (l : list N) : option Z :=
  match l with
  | [] => Some 0
  | c :: l' =>
      if (lower c =? 101)%N then
        let '(neg, ds) := take_sign l' in
        match ds with
        | [] => None
        | _ => if all_digits ds then
                 let v := Z.of_N (dec_value ds) in
                 Some (if neg then - v else v)
               else None
        end
      else None
  end.

Definition could_not_convert : exn :=
  value_error "could not convert string to float".

(** The words [inf], [infinity] and [nan], in lower case. *)
Definition word_inf : list N := [105; 110; 102]%N.
Definition word_infinity : list N :=
  [105; 110; 102; 105; 110; 105; 116; 121]%N.
Definition word_nan : list N := [110; 97; 110]%N.

(** [float(s)] for a string argument. *)
Definition py_float (l : list N) : result pyfloat :=
  match drop_underscores None (transform l) with
  | None => Raise could_not_convert
  | Some t =>
      let '(neg, body) := take_sign (strip t) in
      let word := map lower body in
      if decide (word = word_inf) then Ok (SpecFloat.S754_infinity neg)
      else if decide (word = word_infinity) then
        Ok (SpecFloat.S754_infinity neg)
      else if decide (word = word_nan) then Ok SpecFloat.S754_nan
      else
        let '(ip, r1) := span_digits body in
        let '(fp, r2) := match r1 with
                         | c :: r1' =>
                             if (c =? 46)%N then span_digits r1'
                             else ([], r1)
                         | [] => ([], [])
                         end in
        match ip ++ fp with
        | [] => Raise could_not_convert
        | ds =>
            match parse_exponent r2 with
            | Some ex =>
                Ok (float_of_decimal neg (dec_value ds)
                      (ex - Z.of_nat (length fp)))
            | None => Raise could_not_convert
            end
        end
  end.

End Py.

Import Py.

(** ** The browser session

    Selenium's [WebDriver] and [WebElement] methods that [parse.py] calls.
    The browser is a state machine over an arbitrary state [W]: every call
    may change the page and may raise.  A [WebElement] is a handle. *)

Definition element : Type := nat.

Inductive By : Type := CLASS_NAME | TAG_NAME.

Record WebDriver (W : Type) : Type := {
  get : string -> W -> W * result unit;
  find_element : By -> string -> W -> W * result element;
  find_elements : element -> By -> string -> W -> W * result (list element);
  get_property : element -> string -> W -> W * result pyval;
  click : element -> W -> W * result unit;
  text : element -> W -> W * result string;
  page_source : W -> W * result string
}.
Arguments get {W}.
Arguments find_element {W}.
Arguments find_elements {W}.
Arguments get_property {W}.
Arguments click {W}.
Arguments text {W}.
Arguments page_source {W}.

(** The calls made on the session, in order; kept to state what the
    scraper did to the browser. *)
Inductive call : Type :=
  | CGet (url : string)
  | CFindElement (b : By) (sel : string)
  | CFindElements (el : element) (b : By) (sel : string)
  | CGetProperty (el : element) (name : string)
  | CClick (el : element)
  | CText (el : element)
  | CPageSource.

#[global] Instance By_eq_dec : EqDecision By.
Proof. solve_decision. Defined.

#[global] Instance call_eq_dec : EqDecision call.
Proof. solve_decision. Defined.

Definition is_click (c : call) : bool :=
  match c with CClick _ => true | _ => false end.

(** ** Logging *)

Inductive level : Type := INFO | WARNING | ERROR.

#[global] Instance level_eq_dec : EqDecision level.
Proof. solve_decision. Defined.

Definition log_record : Type := level * string.

(** ** The markup of a product card

    What BeautifulSoup's selections return on one [.thumbnail] block: a tag
    is its attribute dictionary, [select_one] gives [None] when nothing
    matches. *)

Definition tag : Type := gmap string string.

Record soup : Type := {
  sel_title : option tag;            (* select_one(".title") *)
  sel_description : option string;   (* select_one(".description"), its .text *)
  sel_price : option string;         (* select_one(".price"), its .text *)
  sel_stars : list tag;              (* select(".ratings span.ws-icon.ws-icon-star") *)
  sel_review_count : option string   (* select_one(".review-count"), its .text *)
}.

(** [t[name]] on the result of [select_one].  The text of the [KeyError] is
    the [repr] of the name, its quoted form for the names used here. *)
Definition subscript (t : option tag) (name : string) : result string :=
  match t with
  | None => Raise (mk_exn TypeError "'NoneType' object is not subscriptable")
  | Some attrs =>
      match attrs !! name with
      | Some v => Ok v
      | None => Raise (mk_exn KeyError ("'" +:+ name +:+ "'"))
      end
  end.

(** [t.text] on the result of [select_one]. *)
Definition text_of (t : option string) : result string :=
  match t with
  | None =>
      Raise (mk_exn AttributeError "'NoneType' object has no attribute 'text'")
  | Some s => Ok s
  end.

(** [l[0]] *)
Definition first_item {A} (l : list A) : result A :=
  match l with
  | [] => Raise (mk_exn IndexError "list index out of range")
  | x :: _ => Ok x
  end.

(** ** The product record *)

Record Product : Type := {
  title : string;
  description : string;
  price : pyfloat;
  rating : Z;
  num_of_reviews : Z;
  additional_info : gmap string (gmap pyval pyfloat)
}.

Definition PRODUCT_FIELDS : list string :=
  ["title"; "description"; "price"; "rating"; "num_of_reviews";
   "additional_info"]%string.

Definition BASE_URL : string := "https://webscraper.io/".

(** The expression [float(t.replace("$", ""))] *)
Definition price_of_text (t : string) : result pyfloat :=
  py_float (decode_utf8 (replace1 "$"%char [] (chars t))).

(** The expression [int(t.split()[0])] *)
Definition reviews_of_text (t : string) : result Z :=
  match first_item (split (points t)) with
  | Ok tok => py_int tok
  | Raise e => Raise e
  end.

(** ** The scraper *)

(** The state a run threads through: the browser, the calls made on it so
    far and the log. *)
Record state (W : Type) : Type := mk_state {
  browser : W;
  calls : list call;
  log : list log_record
}.
Arguments mk_state {W}.
Arguments browser {W}.
Arguments calls {W}.
Arguments log {W}.

(** A computation that may change the state and may raise. *)
Definition M (W A : Type) : Type := state W -> state W * result A.

Definition ret {W A} (a : A) : M W A := fun s => (s, Ok a).

Definition bind {W A B} (m : M W A) (k : A -> M W B) : M W B :=
  fun s =>
    match m s with
    | (s', Ok a) => k a s'
    | (s', Raise e) => (s', Raise e)
    end.

Notation "'do' x <~ m ;; k" := (bind m (fun x => k))
  (at level 10, x name, m at level 99, k at level 200, only parsing).

(** A pure expression that may raise. *)
Definition lift {W A} (r : result A) : M W A := fun s => (s, r).

(** A call on the session. *)
Definition invoke {W A} (c : call) (op : W -> W * result A) : M W A :=
  fun s =>
    let '(w, r) := op (browser s) in
    (mk_state w (calls s ++ [c]) (log s), r).

Definition logging {W} (lvl : level) (msg : string) : M W unit :=
  fun s => (mk_state (browser s) (calls s) (log s ++ [(lvl, msg)]), Ok tt).

Section Scraper.

Context {W : Type} (driver : WebDriver W).

(** [urljoin] and the markup parser are libraries: [urljoin base path]
    resolves a link, [select_thumbnails src] is
    [BeautifulSoup(src, "html.parser").select(".thumbnail")]. *)
Context (urljoin : string -> string -> string).
Context (select_thumbnails : string -> list soup).

Definition driver_get (url : string) : M W unit :=
  invoke (CGet url) (get driver url).

Definition driver_find_element (b : By) (sel : string) : M W element :=
  invoke (CFindElement b sel) (find_element driver b sel).

Definition element_find_elements (el : element) (b : By) (sel : string)
  : M W (list element) :=
  invoke (CFindElements el b sel) (find_elements driver el b sel).

Definition element_get_property (el : element) (name : string) : M W pyval :=
  invoke (CGetProperty el name) (get_property driver el name).

Definition element_click (el : element) : M W unit :=
  invoke (CClick el) (click driver el).

Definition element_text (el : element) : M W string :=
  invoke (CText el) (text driver el).

Definition driver_page_source : M W string :=
  invoke CPageSource (page_source driver).

(** The body of [for button in buttons]: the entry it stores in [prices],
    if any.  The right-hand side of the assignment is evaluated before the
    subscript, so the price is read before the button's value. *)
Definition swatch_entry (button : element) : M W (option (pyval * pyfloat)) :=
  do disabled <~ element_get_property button "disabled" ;;
  if truthy disabled then ret None
  else
    do _ <~ element_click button ;;
    do price_el <~ driver_find_element CLASS_NAME "price" ;;
    do t <~ element_text price_el ;;
    do p <~ lift (price_of_text t) ;;
    do value <~ element_get_property button "value" ;;
    ret (Some (value, p)).

(** The [for] loop.  [prices] is the dictionary it mutates; when an
    iteration raises, the entries stored before it remain. *)
Fixpoint swatch_loop (buttons : list element) (prices : gmap pyval pyfloat)
  (s : state W) : state W * (gmap pyval pyfloat * result unit) :=
  match buttons with
  | [] => (s, (prices, Ok tt))
  | button :: rest =>
      match swatch_entry button s with
      | (s', Ok (Some (k, v))) => swatch_loop rest (<[k := v]> prices) s'
      | (s', Ok None) => swatch_loop rest prices s'
      | (s', Raise e) => (s', (prices, Raise e))
      end
  end.

(** The [try] block of [product_hdd_block_prices], started with
    [prices = {}].  A [WebElement] is always truthy, so [if swatches:]
    takes its branch whenever the lookup returns. *)
Definition swatch_block (s : state W)
  : state W * (gmap pyval pyfloat * result unit) :=
  match driver_find_element CLASS_NAME "swatches" s with
  | (s1, Raise e) => (s1, (∅, Raise e))
  | (s1, Ok swatches) =>
      match element_find_elements swatches TAG_NAME "button" s1 with
      | (s2, Raise e) => (s2, (∅, Raise e))
      | (s2, Ok buttons) => swatch_loop buttons ∅ s2
      end
  end.

Definition product_hdd_block_prices (product_soup : soup)
  : M W (gmap pyval pyfloat) :=
  do href <~ lift (subscript (sel_title product_soup) "href") ;;
  do _ <~ driver_get (urljoin BASE_URL href) ;;
  fun s =>
    match swatch_block s with
    | (s', (prices, Ok _)) => (s', Ok prices)
    | (s', (prices, Raise e)) =>
        if isinstance e NoSuchElementException then (s', Ok prices)
        else (s', Raise e)
    end.

Definition parse_single_product (product_soup : soup) : M W Product :=
  do hdd_prices <~ product_hdd_block_prices product_soup ;;
  do title_ <~ lift (subscript (sel_title product_soup) "title") ;;
  do description_ <~ lift (text_of (sel_description product_soup)) ;;
  do price_text <~ lift (text_of (sel_price product_soup)) ;;
  do price_ <~ lift (price_of_text price_text) ;;
  do reviews_text <~ lift (text_of (sel_review_count product_soup)) ;;
  do num_of_reviews_ <~ lift (reviews_of_text reviews_text) ;;
  ret {| title := title_;
         description := description_;
         price := price_;
         rating := Z.of_nat (length (sel_stars product_soup));
         num_of_reviews := num_of_reviews_;
         additional_info := {[ "hdd_prices"%string := hdd_prices ]} |}.

(** The [try] body of the pagination loop. *)
Definition load_more : M W unit :=
  do more_button <~ driver_find_element CLASS_NAME "ecommerce-items-scroll-more" ;;
  element_click more_button.

(** [while True: try: ... except ...], with [fuel] bounding the number of
    iterations; [None] when the bound is reached with the loop still
    running.  The [except] clauses are tried in the order of the source. *)
Fixpoint pagination_loop (fuel : nat) (s : state W)
  : option (state W * result unit) :=
  match fuel with
  | O => None
  | S fuel' =>
      match load_more s with
      | (s1, Ok _) => pagination_loop fuel' s1
      | (s1, Raise e) =>
          if isinstance e NoSuchElementException then
            Some (logging INFO
                    "No more 'load more' button found, pagination complete." s1)
          else if isinstance e ElementClickInterceptedException then
            pagination_loop fuel'
              (fst (logging WARNING
                      "Click on 'load more' intercepted, retrying..." s1))
          else if isinstance e TimeoutException then
            pagination_loop fuel'
              (fst (logging ERROR
                      "Page load timeout reached while waiting for 'load more' button."
                      s1))
          else if isinstance e WebDriverException then
            Some (logging ERROR ("Webdriver error occurred: " +:+ exn_str e) s1)
          else if isinstance e Exception then
            Some (logging ERROR
                    ("Unexpected error during pagination: " +:+ exn_str e) s1)
          else Some (s1, Raise e)
      end
  end.

(** [[parse_single_product(driver, p) for p in product_soups]] *)
Fixpoint parse_all (product_soups : list soup) : M W (list Product) :=
  match product_soups with
  | [] => ret []
  | p :: rest =>
      do x <~ parse_single_product p ;;
      do xs <~ parse_all rest ;;
      ret (x :: xs)
  end.

Definition get_page_products (fuel : nat) (url : string) (paginate : bool)
  (s : state W) : option (state W * result (list Product)) :=
  let after_loop (r : state W * result unit) :=
    match r with
    | (s2, Ok _) =>
        (do src <~ driver_page_source ;;
         parse_all (select_thumbnails src)) s2
    | (s2, Raise e) => (s2, Raise e)
    end in
  match (do _ <~ logging INFO ("Start scraping products from " +:+ url) ;;
         driver_get url) s with
  | (s1, Raise e) => Some (s1, Raise e)
  | (s1, Ok _) =>
      if paginate then option_map after_loop (pagination_loop fuel s1)
      else Some (after_loop (s1, Ok tt))
  end.

End Scraper.

(** ** Writing the records *)

Inductive cell : Type :=
  | CStr (s : string)
  | CFloat (f : pyfloat)
  | CInt (z : Z)
  | CDict (d : gmap string (gmap pyval pyfloat)).

Definition row : Type := list cell.

(** [dataclasses.astuple] *)
Definition astuple (p : Product) : row :=
  [CStr (title p); CStr (description p); CFloat (price p); CInt (rating p);
   CInt (num_of_reviews p); CDict (additional_info p)].

(** The files, by name, as the rows written to them. *)
Definition open_w (filename : string) (fs : gmap string (list row))
  : gmap string (list row) :=
  <[filename := []]> fs.

Definition writerow (filename : string) (r : row) (fs : gmap string (list row))
  : gmap string (list row) :=
  alter (fun rows => rows ++ [r]) filename fs.

Definition write_products_to_csv (products : list Product) (filename : string)
  (fs : gmap string (list row)) : gmap string (list row) :=
  foldl (fun fs' product => writerow filename (astuple product) fs')
        (writerow filename (CStr <$> PRODUCT_FIELDS) (open_w filename fs))
        products.

(** ** A scripted browser

    A test double for the session: every call consumes the next scripted
    response of its kind; when the script has run out, or the next response
    is of another kind, the call raises [dflt]. *)

Inductive response : Type :=
  | RUnit (r : result unit)
  | RElement (r : result element)
  | RElements (r : result (list element))
  | RValue (r : result pyval)
  | RText (r : result string).

Definition scripted (dflt : exn) : WebDriver (list response) := {|
  get _ w := match w with RUnit r :: w' => (w', r) | _ => (w, Raise dflt) end;
  find_element _ _ w :=
    match w with RElement r :: w' => (w', r) | _ => (w, Raise dflt) end;
  find_elements _ _ _ w :=
    match w with RElements r :: w' => (w', r) | _ => (w, Raise dflt) end;
  get_property _ _ w :=
    match w with RValue r :: w' => (w', r) | _ => (w, Raise dflt) end;
  click _ w := match w with RUnit r :: w' => (w', r) | _ => (w, Raise dflt) end;
  text _ w := match w with RText r :: w' => (w', r) | _ => (w, Raise dflt) end;
  page_source w :=
    match w with RText r :: w' => (w', r) | _ => (w, Raise dflt) end
|}.

Definition start {W} (w : W) : state W := mk_state w [] [].

Definition timeout : exn := mk_exn TimeoutException "Message: timeout".
Definition no_such_element : exn :=
  mk_exn NoSuchElementException "Message: no such element".
Definition click_intercepted : exn :=
  mk_exn ElementClickInterceptedException "Message: element click intercepted".
Definition not_interactable : exn :=
  mk_exn ElementNotInteractableException "Message: element not interactable".
Definition script_end : exn := mk_exn WebDriverException "Message: script ended".

(** [urljoin(base, link)] for the links of the test pages: [base] is an
    absolute URL without query or fragment, [link] is empty, a path from the
    root ([/a/b]) or a path relative to the directory of [base] ([a/b]),
    without dot segments, query, fragment, scheme or authority.  A path from
    the root replaces the path of [base]; a relative one replaces what
    follows the last slash of the path of [base]. *)

(** Up to the first slash. *)
Fixpoint authority (l : list ascii) : list ascii :=
  match l with
  | [] => []
  | c :: l' => if decide (c = "/"%char) then [] else c :: authority l'
  end.

(** The scheme and authority of an absolute URL, [https://host]. *)
Fixpoint origin (l : list ascii) : list ascii :=
  match l with
  | [] => []
  | c :: l' =>
      match l' with
      | d :: rest =>
          if decide (c = "/"%char /\ d = "/"%char)
          then c :: d :: authority rest
          else c :: origin l'
      | [] => [c]
      end
  end.

(** A path up to its last slash; the root for an empty path. *)
Definition directory (p : list ascii) : list ascii :=
  match p with
  | [] => ["/"%char]
  | _ => rev (drop_while (fun c => bool_decide (c <> "/"%char)) (rev p))
  end.

Definition join_urls (base link : string) : string :=
  let o := origin (chars base) in
  let p := drop (length o) (chars base) in
  match chars link with
  | [] => base
  | c :: _ =>
      if decide (c = "/"%char) then string_of_list_ascii o +:+ link
      else string_of_list_ascii (o ++ directory p) +:+ link
  end.

Definition MORE : string := "ecommerce-items-scroll-more".

Definition more_lookup : call := CFindElement CLASS_NAME MORE.

(** A card as the site renders it. *)
Definition sample_card : soup := {|
  sel_title := Some {[ "href"%string := "test-sites/e-commerce/more/product/1"%string;
                       "title"%string := "Asus VivoBook"%string ]};
  sel_description := Some "15.6 inch, 4GB, 500GB"%string;
  sel_price := Some "$24.99"%string;
  sel_stars := [∅; ∅; ∅];
  sel_review_count := Some "15 reviews"%string
|}.

(** Scripts of simulated pages. *)

(** A listing whose "load more" control serves two clicks and is then gone. *)
Definition two_more_clicks : list response :=
  [RElement (Ok 7%nat); RUnit (Ok tt);
   RElement (Ok 7%nat); RUnit (Ok tt);
   RElement (Raise no_such_element)].

(** A listing whose first lookup of the control times out; the control is
    then there for one click. *)
Definition timeout_then_more : list response :=
  [RElement (Raise timeout);
   RElement (Ok 7%nat); RUnit (Ok tt);
   RElement (Raise no_such_element)].

(** A listing whose control cannot be interacted with at the first click and
    would take it at the second. *)
Definition blocked_then_more : list response :=
  [RElement (Ok 7%nat); RUnit (Raise not_interactable);
   RElement (Ok 7%nat); RUnit (Ok tt);
   RElement (Raise no_such_element)].

(** A detail page without a swatch group. *)
Definition detail_without_swatches : list response :=
  [RUnit (Ok tt); RElement (Raise no_such_element)].

(** A detail page with one enabled swatch button and no price element. *)
Definition detail_without_price : list response :=
  [RUnit (Ok tt); RElement (Ok 1%nat); RElements (Ok [2%nat]);
   RValue (Ok (PyBool false)); RUnit (Ok tt);
   RElement (Raise no_such_element)].

(** A detail page with three swatch buttons, the second one disabled. *)
Definition detail_three_buttons : list response :=
  [RUnit (Ok tt); RElement (Ok 1%nat); RElements (Ok [2%nat; 3%nat; 4%nat]);
   RValue (Ok (PyBool false)); RUnit (Ok tt); RElement (Ok 9%nat);
   RText (Ok "$100.50"%string); RValue (Ok (PyStr "128"));
   RValue (Ok (PyBool true));
   RValue (Ok (PyBool false)); RUnit (Ok tt); RElement (Ok 9%nat);
   RText (Ok "$120"%string); RValue (Ok (PyStr "256"))].

Definition detail_url : string :=
  "https://webscraper.io/test-sites/e-commerce/more/product/1".

(** ** Properties of pages, stated on the browser *)

Section Pages.

Context {W : Type} (driver : WebDriver W).

(** The "load more" control is found and clicked [K] times in a row and is
    absent at the lookup after that. *)
Fixpoint offers (K : nat) (w : W) : Prop :=
  match K with
  | O => exists w' e,
      find_element driver CLASS_NAME MORE w = (w', Raise e)
      /\ isinstance e NoSuchElementException = true
  | S k => exists w1 el w2,
      find_element driver CLASS_NAME MORE w = (w1, Ok el)
      /\ click driver el w1 = (w2, Ok tt)
      /\ offers k w2
  end.

(** What one swatch button does to the browser and what the loop body makes
    of it: the entry it stores, nothing for a disabled button, or the
    exception of the first call that fails. *)
Inductive button_step (b : element)
  : W -> result (option (pyval * pyfloat)) -> W -> Prop :=
  | step_disabled_raises w w1 e :
      get_property driver b "disabled" w = (w1, Raise e) ->
      button_step b w (Raise e) w1
  | step_skipped w w1 v :
      get_property driver b "disabled" w = (w1, Ok v) ->
      truthy v = true ->
      button_step b w (Ok None) w1
  | step_click_raises w w1 v w2 e :
      get_property driver b "disabled" w = (w1, Ok v) ->
      truthy v = false ->
      click driver b w1 = (w2, Raise e) ->
      button_step b w (Raise e) w2
  | step_price_raises w w1 v w2 w3 e :
      get_property driver b "disabled" w = (w1, Ok v) ->
      truthy v = false ->
      click driver b w1 = (w2, Ok tt) ->
      find_element driver CLASS_NAME "price" w2 = (w3, Raise e) ->
      button_step b w (Raise e) w3
  | step_text_raises w w1 v w2 w3 el w4 e :
      get_property driver b "disabled" w = (w1, Ok v) ->
      truthy v = false ->
      click driver b w1 = (w2, Ok tt) ->
      find_element driver CLASS_NAME "price" w2 = (w3, Ok el) ->
      text driver el w3 = (w4, Raise e) ->
      button_step b w (Raise e) w4
  | step_float_raises w w1 v w2 w3 el w4 t e :
      get_property driver b "disabled" w = (w1, Ok v) ->
      truthy v = false ->
      click driver b w1 = (w2, Ok tt) ->
      find_element driver CLASS_NAME "price" w2 = (w3, Ok el) ->
      text driver el w3 = (w4, Ok t) ->
      price_of_text t = Raise e ->
      button_step b w (Raise e) w4
  | step_value_raises w w1 v w2 w3 el w4 t p w5 e :
      get_property driver b "disabled" w = (w1, Ok v) ->
      truthy v = false ->
      click driver b w1 = (w2, Ok tt) ->
      find_element driver CLASS_NAME "price" w2 = (w3, Ok el) ->
      text driver el w3 = (w4, Ok t) ->
      price_of_text t = Ok p ->
      get_property driver b "value" w4 = (w5, Raise e) ->
      button_step b w (Raise e) w5
  | step_stored w w1 v w2 w3 el w4 t p w5 k :
      get_property driver b "disabled" w = (w1, Ok v) ->
      truthy v = false ->
      click driver b w1 = (w2, Ok tt) ->
      find_element driver CLASS_NAME "price" w2 = (w3, Ok el) ->
      text driver el w3 = (w4, Ok t) ->
      price_of_text t = Ok p ->
      get_property driver b "value" w4 = (w5, Ok k) ->
      button_step b w (Ok (Some (k, p))) w5.

(** The buttons are handled one after the other without a failure:
    [outs] lists, per button, the entry stored for it. *)
Inductive buttons_ok
  : list element -> W -> list (option (pyval * pyfloat)) -> W -> Prop :=
  | buttons_ok_nil w : buttons_ok [] w [] w
  | buttons_ok_cons b bs w o w1 outs w2 :
      button_step b w (Ok o) w1 ->
      buttons_ok bs w1 outs w2 ->
      buttons_ok (b :: bs) w (o :: outs) w2.

End Pages.

(** The entries the enabled buttons store, in order. *)
Definition entries (outs : list (option (pyval * pyfloat)))
  : list (pyval * pyfloat) :=
  omap id outs.

(** The dictionary after storing [l] into [m], later entries overwriting
    earlier ones. *)
Definition store_all (l : list (pyval * pyfloat)) (m : gmap pyval pyfloat)
  : gmap pyval pyfloat :=
  foldl (fun m' kv => <[kv.1 := kv.2]> m') m l.

Section Failures.

Context {W : Type} (driver : WebDriver W).

(** A failure inside the [try] block of [product_hdd_block_prices], entered
    with the browser at [w]: the call that fails raises [e], [prices] is
    what the dictionary holds at that point. *)
Inductive block_fails (w : W) : exn -> gmap pyval pyfloat -> W -> Prop :=
  | fails_at_swatches w1 e :
      find_element driver CLASS_NAME "swatches" w = (w1, Raise e) ->
      block_fails w e ∅ w1
  | fails_at_buttons w1 sw w2 e :
      find_element driver CLASS_NAME "swatches" w = (w1, Ok sw) ->
      find_elements driver sw TAG_NAME "button" w1 = (w2, Raise e) ->
      block_fails w e ∅ w2
  | fails_at_button w1 sw w2 handled b rest outs w3 e w4 :
      find_element driver CLASS_NAME "swatches" w = (w1, Ok sw) ->
      find_elements driver sw TAG_NAME "button" w1
      = (w2, Ok (handled ++ b :: rest)) ->
      buttons_ok driver handled w2 outs w3 ->
      button_step driver b w3 (Raise e) w4 ->
      block_fails w e (store_all (entries outs) ∅) w4.

End Failures.

Definition count_clicks (cs : list call) : nat :=
  length (List.filter is_click cs).

(** A price text as the site shows it: the dollar sign, digits and, at will,
    a decimal point with further digits. *)
Definition price_chars (ip : list ascii) (frac : option (list ascii))
  : list ascii :=
  "$"%char :: ip ++ match frac with
                    | Some fp => "."%char :: fp
                    | None => []
                    end.

(** ** The catalog run *)

(** The targets, in the order of the dictionary literal: name, path and
    pagination flag. *)
Definition pages_info : list (string * (string * bool)) :=
  [("home", ("test-sites/e-commerce/more/", false));
   ("computers", ("test-sites/e-commerce/more/computers", false));
   ("laptops", ("test-sites/e-commerce/more/computers/laptops", true));
   ("tablets", ("test-sites/e-commerce/more/computers/tablets", true));
   ("phones", ("test-sites/e-commerce/more/phones", false));
   ("touch", ("test-sites/e-commerce/more/phones/touch", true))]%string.

Section Catalog.

Context {W : Type} (driver : WebDriver W).
Context (urljoin : string -> string -> string).
Context (select_thumbnails : string -> list soup).

(** [driver.quit()], which leaving the [with] block calls. *)
Context (quit : W -> W * result unit).

(** [for name, info in pages_info.items()], with the files written so
    far. *)
Fixpoint scrape_pages (fuel : nat) (pages : list (string * (string * bool)))
  (s : state W) (fs : gmap string (list row))
  : option (state W * gmap string (list row) * result unit) :=
  match pages with
  | [] => Some (s, fs, Ok tt)
  | (name, (path, paginate)) :: rest =>
      match get_page_products driver urljoin select_thumbnails fuel
              (urljoin BASE_URL path) paginate s with
      | None => None
      | Some (s1, Raise e) => Some (s1, fs, Raise e)
      | Some (s1, Ok products) =>
          scrape_pages fuel rest s1
            (write_products_to_csv products (name +:+ ".csv") fs)
      end
  end.

(** [with webdriver.Chrome() as driver: ...], from the fresh session
    [chrome].  The session is quit on the way out, also when the body
    raised; an exception of [quit] itself takes the place of the body's
    outcome. *)
Definition get_all_products (fuel : nat) (chrome : W)
  (fs : gmap string (list row))
  : option (state W * gmap string (list row) * result unit) :=
  match scrape_pages fuel pages_info (start chrome) fs with
  | None => None
  | Some (s, fs', r) =>
      let '(w, q) := quit (browser s) in
      Some (mk_state w (calls s) (log s), fs',
            match q with Ok _ => r | Raise e => Raise e end)
  end.

End Catalog.

(** ** Further notions used in the statements *)

(** The file [write_products_to_csv] leaves for a list of records. *)
Definition csv_file (products : list Product) : list row :=
  (CStr <$> PRODUCT_FIELDS) :: (astuple <$> products).

(** The name of a target's file. *)
Definition csv_name (page : string * (string * bool)) : string :=
  page.1 +:+ ".csv".

(** The buttons that stored an entry. *)
Fixpoint clicked_buttons (bs : list element)
  (outs : list (option (pyval * pyfloat))) : list element :=
  match bs, outs with
  | b :: bs', Some _ :: outs' => b :: clicked_buttons bs' outs'
  | _ :: bs', None :: outs' => clicked_buttons bs' outs'
  | _, _ => []
  end.

Definition clicks_of (cs : list call) : list call := List.filter is_click cs.

Definition is_more_lookup (c : call) : bool :=
  match c with
  | CFindElement CLASS_NAME sel => bool_decide (sel = MORE)
  | _ => false
  end.

Definition count_lookups (cs : list call) : nat :=
  length (List.filter is_more_lookup cs).

(** The two lines a page without incidents logs. *)
Definition start_line (url : string) : log_record :=
  (INFO, "Start scraping products from " +:+ url).

Definition complete_line : log_record :=
  (INFO, "No more 'load more' button found, pagination complete."%string).

(** Notions for the runs of the pagination loop and of a whole page. *)
Section PageNotions.

Context {W : Type} (driver : WebDriver W).
Context (urljoin : string -> string -> string).

(** [e] is what the browser raised on the lookup of the control, or on the
    click on the control it found, going from [w] to [w']. *)
Definition raised_by_browser (w w' : W) (e : exn) : Prop :=
  find_element driver CLASS_NAME MORE w = (w', Raise e)
  \/ exists el w1,
       find_element driver CLASS_NAME MORE w = (w1, Ok el)
       /\ click driver el w1 = (w', Raise e).

(** An iteration of the pagination loop after which the loop goes on: the
    click was made, or it was intercepted or timed out, and a line was
    logged. *)
Inductive goes_on : state W -> state W -> Prop :=
  | go_clicked s s1 :
      load_more driver s = (s1, Ok tt) ->
      goes_on s s1
  | go_intercepted s s1 e :
      load_more driver s = (s1, Raise e) ->
      isinstance e NoSuchElementException = false ->
      isinstance e ElementClickInterceptedException = true ->
      goes_on s
        (fst (logging WARNING "Click on 'load more' intercepted, retrying..."
                s1))
  | go_timed_out s s1 e :
      load_more driver s = (s1, Raise e) ->
      isinstance e NoSuchElementException = false ->
      isinstance e ElementClickInterceptedException = false ->
      isinstance e TimeoutException = true ->
      goes_on s
        (fst (logging ERROR
                "Page load timeout reached while waiting for 'load more' button."
                s1)).

(** From [w] the control is found and clicked as the elements [els], one
    after the other, and is absent at the lookup after the last click, which
    leaves the browser in [w']. *)
Inductive offered : list element -> W -> W -> Prop :=
  | offered_last w w' e :
      find_element driver CLASS_NAME MORE w = (w', Raise e) ->
      isinstance e NoSuchElementException = true ->
      offered [] w w'
  | offered_more el els w w1 w2 w' :
      find_element driver CLASS_NAME MORE w = (w1, Ok el) ->
      click driver el w1 = (w2, Ok tt) ->
      offered els w2 w' ->
      offered (el :: els) w w'.

(** The calls of a pagination that clicks [els]: a lookup and a click for
    each, and the lookup that finds nothing. *)
Definition more_calls (els : list element) : list call :=
  flat_map (fun el => [more_lookup; CClick el]) els ++ [more_lookup].

(** The records are parsed from the cards one after the other, each parse
    starting in the state the one before ended in: from [s] to [s']. *)
Inductive parsed_in_turn
  : list soup -> list Product -> state W -> state W -> Prop :=
  | parsed_none s : parsed_in_turn [] [] s s
  | parsed_next card cards p ps s s1 s' :
      parse_single_product driver urljoin card s = (s1, Ok p) ->
      parsed_in_turn cards ps s1 s' ->
      parsed_in_turn (card :: cards) (p :: ps) s s'.

End PageNotions.

(** A computation that leaves the log alone and only adds to the calls. *)
Definition quiet {W A} (m : M W A) : Prop :=
  forall s, log (m s).1 = log s /\ exists cs, calls (m s).1 = calls s ++ cs.

(** A scripted catalog run on six empty listings: the three paginated ones
    have no "load more" control. *)
Definition empty_catalog : list response :=
  [RUnit (Ok tt); RText (Ok ""%string);
   RUnit (Ok tt); RText (Ok ""%string);
   RUnit (Ok tt); RElement (Raise no_such_element); RText (Ok ""%string);
   RUnit (Ok tt); RElement (Raise no_such_element); RText (Ok ""%string);
   RUnit (Ok tt); RText (Ok ""%string);
   RUnit (Ok tt); RElement (Raise no_such_element); RText (Ok ""%string)].

(** A listing whose control is covered at the first click and then serves
    one click. *)
Definition intercepted_then_more : list response :=
  [RElement (Ok 7%nat); RUnit (Raise click_intercepted);
   RElement (Ok 7%nat); RUnit (Ok tt);
   RElement (Raise no_such_element)].

Definition warning_line : log_record :=
  (WARNING, "Click on 'load more' intercepted, retrying..."%string).



(** A catalog run whose second target cannot be reached. *)
Definition catalog_second_unreachable : list response :=
  [RUnit (Ok tt); RText (Ok ""%string); RUnit (Raise timeout)].

Definition quit_ok (w : list response) : list response * result unit :=
  (w, Ok tt).

Definition no_cards (src : string) : list soup := [].

Definition one_card (src : string) : list soup := [sample_card].

Definition interrupt : exn := mk_exn KeyboardInterrupt "".

(** A listing whose control serves one click; the second click is
    interrupted. *)
Definition interrupted_click : list response :=
  [RElement (Ok 7%nat); RUnit (Ok tt);
   RElement (Ok 7%nat); RUnit (Raise interrupt)].

(** The record of [sample_card] when its detail page has no swatches. *)
Definition sample_record : Product := {|
  title := "Asus VivoBook";
  description := "15.6 inch, 4GB, 500GB";
  price := float_of_decimal false 2499 (-2);
  rating := 3;
  num_of_reviews := 15;
  additional_info := {[ "hdd_prices"%string := ∅ ]}
|}.

(** [sample_card] without its review count. *)
Definition card_without_reviews : soup := {|
  sel_title := sel_title sample_card;
  sel_description := sel_description sample_card;
  sel_price := sel_price sample_card;
  sel_stars := sel_stars sample_card;
  sel_review_count := None
|}.


(** [sample_card] with another text in its review count. *)
Definition card_reviewed (t : string) : soup := {|
  sel_title := sel_title sample_card;
  sel_description := sel_description sample_card;
  sel_price := sel_price sample_card;
  sel_stars := sel_stars sample_card;
  sel_review_count := Some t
|}.

(** [sample_card] with another text in its price. *)
Definition card_priced (t : string) : soup := {|
  sel_title := sel_title sample_card;
  sel_description := sel_description sample_card;
  sel_price := Some t;
  sel_stars := sel_stars sample_card;
  sel_review_count := sel_review_count sample_card
|}.

(** The no-break space U+00A0, as the two bytes of its encoding. *)
Definition nbsp : string :=
  string_of_list_ascii [ascii_of_N 194; ascii_of_N 160].

(** A review count of 4301 digits. *)
Definition many_digits : string := string_of_list_ascii (repeat "1"%char 4301).

(** A price of four hundred digits. *)
Definition long_digits : list ascii := repeat "9"%char 400.

Definition long_price : string := string_of_list_ascii ("$"%char :: long_digits).

(** A listing of one card whose detail page has no swatches. *)
Definition single_listing : list response :=
  [RUnit (Ok tt); RText (Ok "<html>"%string);
   RUnit (Ok tt); RElement (Raise no_such_element)].

(** A listing that serves two clicks and shows no card. *)
Definition paginated_listing : list response :=
  RUnit (Ok tt) :: two_more_clicks ++ [RText (Ok ""%string)].

(** A detail page with two enabled swatch buttons of the same value. *)
Definition detail_same_value : list response :=
  [RUnit (Ok tt); RElement (Ok 1%nat); RElements (Ok [2%nat; 3%nat]);
   RValue (Ok (PyBool false)); RUnit (Ok tt); RElement (Ok 9%nat);
   RText (Ok "$100"%string); RValue (Ok (PyStr "128"));
   RValue (Ok (PyBool false)); RUnit (Ok tt); RElement (Ok 9%nat);
   RText (Ok "$110"%string); RValue (Ok (PyStr "128"))].

Definition listing_url : string :=
  "https://webscraper.io/test-sites/e-commerce/more/computers/laptops".

(** * Verification *)

(** ** Exceptions *)

Lemma isinstance_class (e : exn) (c k : exc_class) :
  exn_class e = c -> isinstance e k = issubclass c k.
Proof. intros <-. reflexivity. Qed.

Lemma selenium_errors_are_webdriver_errors (c : exc_class) :
  base_of c = Some WebDriverException \/ c = ElementNotInteractableException ->
  issubclass c WebDriverException = true.
Proof. destruct c; intros [H | H]; try discriminate; reflexivity. Qed.

(** ** The pagination loop *)

Section Pagination.

Context {W : Type} (driver : WebDriver W).

Lemma load_more_absent (s : state W) (w' : W) (e : exn) :
  find_element driver CLASS_NAME MORE (browser s) = (w', Raise e) ->
  load_more driver s
  = (mk_state w' (calls s ++ [more_lookup]) (log s), Raise e).
Proof.
  intros Hfind. unfold load_more, bind, driver_find_element, invoke.
  fold MORE. rewrite Hfind. reflexivity.
Qed.

Lemma load_more_click (s : state W) (w1 w2 : W) (el : element)
  (r : result unit) :
  find_element driver CLASS_NAME MORE (browser s) = (w1, Ok el) ->
  click driver el w1 = (w2, r) ->
  load_more driver s
  = (mk_state w2 (calls s ++ [more_lookup; CClick el]) (log s), r).
Proof.
  intros Hfind Hclick.
  unfold load_more, bind, driver_find_element, element_click, invoke.
  fold MORE. rewrite Hfind. simpl. rewrite Hclick.
  rewrite <- app_assoc. reflexivity.
Qed.

(** A successful click starts the next iteration. *)
Lemma pagination_loop_clicked (n : nat) (s s1 : state W) :
  load_more driver s = (s1, Ok tt) ->
  pagination_loop driver (S n) s = pagination_loop driver n s1.
Proof. intros H. simpl. rewrite H. reflexivity. Qed.

(** The control is gone: the loop ends with an [INFO] line. *)
Lemma pagination_loop_absent (n : nat) (s s1 : state W) (e : exn) :
  load_more driver s = (s1, Raise e) ->
  isinstance e NoSuchElementException = true ->
  pagination_loop driver (S n) s
  = Some (mk_state (browser s1) (calls s1)
            (log s1 ++ [(INFO,
               "No more 'load more' button found, pagination complete."%string)]),
          Ok tt).
Proof. intros H Hi. simpl. rewrite H, Hi. reflexivity. Qed.

(** An intercepted click is logged as a warning and the iteration is run
    again. *)
Lemma pagination_loop_intercepted (n : nat) (s s1 : state W) (e : exn) :
  load_more driver s = (s1, Raise e) ->
  exn_class e = ElementClickInterceptedException ->
  pagination_loop driver (S n) s
  = pagination_loop driver n
      (mk_state (browser s1) (calls s1)
         (log s1 ++ [(WARNING,
            "Click on 'load more' intercepted, retrying..."%string)])).
Proof.
  intros H Hc. simpl. rewrite H.
  rewrite !(isinstance_class e _ _ Hc). reflexivity.
Qed.

(** A timeout is logged as an error, and the iteration is run again all the
    same: the handler has no [break]. *)
Lemma pagination_loop_timeout (n : nat) (s s1 : state W) (e : exn) :
  load_more driver s = (s1, Raise e) ->
  exn_class e = TimeoutException ->
  pagination_loop driver (S n) s
  = pagination_loop driver n
      (mk_state (browser s1) (calls s1)
         (log s1 ++ [(ERROR,
            "Page load timeout reached while waiting for 'load more' button."%string)])).
Proof.
  intros H Hc. simpl. rewrite H.
  rewrite !(isinstance_class e _ _ Hc). reflexivity.
Qed.

(** Any other Selenium error ends the loop with an [ERROR] line; a control
    that cannot be interacted with is among them. *)
Lemma pagination_loop_webdriver_error (n : nat) (s s1 : state W) (e : exn) :
  load_more driver s = (s1, Raise e) ->
  isinstance e NoSuchElementException = false ->
  isinstance e ElementClickInterceptedException = false ->
  isinstance e TimeoutException = false ->
  isinstance e WebDriverException = true ->
  pagination_loop driver (S n) s
  = Some (mk_state (browser s1) (calls s1)
            (log s1 ++ [(ERROR, "Webdriver error occurred: " +:+ exn_str e)]),
          Ok tt).
Proof.
  intros H H1 H2 H3 H4. simpl. rewrite H, H1, H2, H3, H4. reflexivity.
Qed.

(** Whatever the browser does, no [Exception] leaves the loop. *)
Lemma pagination_loop_catches (fuel : nat) (s s' : state W) (e : exn) :
  pagination_loop driver fuel s = Some (s', Raise e) ->
  isinstance e Exception = false.
Proof.
  revert s. induction fuel as [|n IH]; intros s; simpl; [discriminate|].
  destruct (load_more driver s) as [s1 [[]|e1]]; [apply IH|].
  destruct (isinstance e1 NoSuchElementException); [discriminate|].
  destruct (isinstance e1 ElementClickInterceptedException); [apply IH|].
  destruct (isinstance e1 TimeoutException); [apply IH|].
  destruct (isinstance e1 WebDriverException); [discriminate|].
  destruct (isinstance e1 Exception) eqn:He; [discriminate|].
  intros [= <- <-]. exact He.
Qed.

Lemma count_clicks_app (cs ds : list call) :
  count_clicks (cs ++ ds) = (count_clicks cs + count_clicks ds)%nat.
Proof.
  unfold count_clicks. rewrite List.filter_app, length_app. reflexivity.
Qed.

(** C7.  On a page that offers the "load more" control for exactly [K]
    lookups, each followed by a successful click, and no longer at lookup
    [K+1], the loop returns normally as soon as it may run [K+1]
    iterations; it has then made [K] clicks among [2K+1] calls, and the
    only line it has logged is the [INFO] line that pagination is
    complete: no warning and no error. *)
Theorem pagination_clicks_until_absent (K fuel : nat) (s : state W) :
  offers driver K (browser s) ->
  (K < fuel)%nat ->
  exists (w' : W) (cs : list call),
    pagination_loop driver fuel s
    = Some (mk_state w' (calls s ++ cs)
              (log s ++ [(INFO,
                 "No more 'load more' button found, pagination complete."%string)]),
            Ok tt)
    /\ count_clicks cs = K
    /\ length cs = (2 * K + 1)%nat.
Proof.
  revert fuel s. induction K as [|K IH]; intros fuel s Hoff Hfuel.
  - destruct Hoff as (w' & e & Hfind & He).
    destruct fuel as [|n]; [lia|].
    exists w', [more_lookup].
    rewrite (pagination_loop_absent n s _ e (load_more_absent s w' e Hfind) He).
    simpl. auto.
  - destruct Hoff as (w1 & el & w2 & Hfind & Hclick & Hoff).
    destruct fuel as [|n]; [lia|].
    rewrite (pagination_loop_clicked n s _
               (load_more_click s w1 w2 el (Ok tt) Hfind Hclick)).
    destruct (IH n (mk_state w2 (calls s ++ [more_lookup; CClick el]) (log s)))
      as (w' & cs & Hrun & Hcount & Hlen); [exact Hoff | lia |].
    exists w', ([more_lookup; CClick el] ++ cs).
    rewrite Hrun. simpl calls. simpl log. rewrite <- app_assoc.
    split; [reflexivity|].
    split.
    + rewrite count_clicks_app, Hcount. reflexivity.
    + rewrite length_app, Hlen. simpl. lia.
Qed.

End Pagination.

(** ** Variant prices on the detail page *)

Section StoreAll.

Implicit Types (l : list (pyval * pyfloat)) (m : gmap pyval pyfloat).

Lemma store_all_cons k p l m :
  store_all ((k, p) :: l) m = store_all l (<[k := p]> m).
Proof. reflexivity. Qed.

Lemma store_all_lookup_other l m k :
  k ∉ l.*1 -> store_all l m !! k = m !! k.
Proof.
  revert m. induction l as [|[k0 p0] l IH]; intros m Hk; [reflexivity|].
  rewrite store_all_cons, IH.
  - apply lookup_insert_ne. intros ->. apply Hk. simpl. left.
  - intros Hin. apply Hk. simpl. right. exact Hin.
Qed.

Lemma store_all_lookup l m k p :
  NoDup l.*1 -> (k, p) ∈ l -> store_all l m !! k = Some p.
Proof.
  revert m. induction l as [|[k0 p0] l IH]; intros m Hnd Hin.
  - inversion Hin.
  - simpl in Hnd. apply NoDup_cons in Hnd as [Hfresh Hnd].
    rewrite store_all_cons.
    apply elem_of_cons in Hin as [[= -> ->] | Hin].
    + rewrite store_all_lookup_other by exact Hfresh.
      apply lookup_insert_eq.
    + apply IH; assumption.
Qed.

Lemma store_all_lookup_inv l m k :
  is_Some (store_all l m !! k) -> k ∈ l.*1 \/ is_Some (m !! k).
Proof.
  revert m. induction l as [|[k0 p0] l IH]; intros m Hk; [right; exact Hk|].
  rewrite store_all_cons in Hk. destruct (IH _ Hk) as [Hin | Hm].
  - left. simpl. right. exact Hin.
  - destruct (decide (k0 = k)) as [-> | Hne].
    + left. simpl. left.
    + right. rewrite lookup_insert_ne in Hm by exact Hne. exact Hm.
Qed.

Lemma store_all_size l m :
  NoDup l.*1 -> (forall k, k ∈ l.*1 -> m !! k = None) ->
  size (store_all l m) = (length l + size m)%nat.
Proof.
  revert m. induction l as [|[k0 p0] l IH]; intros m Hnd Hfresh;
    [reflexivity|].
  simpl in Hnd. apply NoDup_cons in Hnd as [Hk0 Hnd].
  rewrite store_all_cons, IH; [| exact Hnd |].
  - rewrite map_size_insert_None; [simpl; lia|].
    apply Hfresh. simpl. left.
  - intros k Hk. rewrite lookup_insert_ne.
    + apply Hfresh. simpl. right. exact Hk.
    + intros ->. contradiction.
Qed.

End StoreAll.

Section DetailPage.

Context {W : Type} (driver : WebDriver W).
Context (urljoin : string -> string -> string).

(** The loop body computes what [button_step] describes. *)
Lemma swatch_entry_step (b : element) (s : state W)
  (r : result (option (pyval * pyfloat))) (w' : W) :
  button_step driver b (browser s) r w' ->
  exists cs, swatch_entry driver b s
             = (mk_state w' (calls s ++ cs) (log s), r).
Proof.
  intros Hstep. remember (browser s) as w eqn:Hw.
  destruct Hstep; subst w;
    unfold swatch_entry, bind, lift, ret, element_get_property, element_click,
      driver_find_element, element_text, invoke;
    repeat match goal with
           | H : _ = (_, _) |- _ => rewrite H; clear H; simpl
           | H : truthy _ = _ |- _ => rewrite H; clear H; simpl
           | H : price_of_text _ = _ |- _ => rewrite H; clear H; simpl
           end;
    rewrite <- ?app_assoc; simpl; eexists; reflexivity.
Qed.

Lemma swatch_loop_ok (bs : list element) (s : state W)
  (outs : list (option (pyval * pyfloat))) (w' : W)
  (prices : gmap pyval pyfloat) :
  buttons_ok driver bs (browser s) outs w' ->
  exists cs, swatch_loop driver bs prices s
             = (mk_state w' (calls s ++ cs) (log s),
                (store_all (entries outs) prices, Ok tt)).
Proof.
  intros Hok. remember (browser s) as w eqn:Hw.
  revert s prices Hw.
  induction Hok as [w | b bs w o w1 outs w2 Hstep Hok IH]; intros s prices ->.
  - exists []. rewrite app_nil_r. destruct s; reflexivity.
  - destruct (swatch_entry_step b s _ _ Hstep) as [cs1 Hcs1].
    simpl. rewrite Hcs1.
    destruct o as [[k p]|].
    + destruct (IH (mk_state w1 (calls s ++ cs1) (log s)) (<[k := p]> prices)
                  eq_refl) as [cs2 Hcs2].
      exists (cs1 ++ cs2). rewrite Hcs2. simpl. rewrite <- app_assoc.
      reflexivity.
    + destruct (IH (mk_state w1 (calls s ++ cs1) (log s)) prices eq_refl)
        as [cs2 Hcs2].
      exists (cs1 ++ cs2). rewrite Hcs2. simpl. rewrite <- app_assoc.
      reflexivity.
Qed.

Lemma swatch_loop_fails (handled : list element) (b : element)
  (rest : list element) (s : state W)
  (outs : list (option (pyval * pyfloat))) (w1 w2 : W) (e : exn)
  (prices : gmap pyval pyfloat) :
  buttons_ok driver handled (browser s) outs w1 ->
  button_step driver b w1 (Raise e) w2 ->
  exists cs, swatch_loop driver (handled ++ b :: rest) prices s
             = (mk_state w2 (calls s ++ cs) (log s),
                (store_all (entries outs) prices, Raise e)).
Proof.
  intros Hok Hfail. remember (browser s) as w eqn:Hw.
  revert s prices Hw.
  induction Hok as [w | b0 bs w o w1 outs w3 Hstep Hok IH]; intros s prices ->.
  - destruct (swatch_entry_step b s _ _ Hfail) as [cs Hcs].
    exists cs. simpl. rewrite Hcs. reflexivity.
  - destruct (swatch_entry_step b0 s _ _ Hstep) as [cs1 Hcs1].
    simpl. rewrite Hcs1.
    destruct o as [[k p]|].
    + destruct (IH Hfail (mk_state w1 (calls s ++ cs1) (log s))
                  (<[k := p]> prices) eq_refl) as [cs2 Hcs2].
      exists (cs1 ++ cs2). rewrite Hcs2. simpl. rewrite <- app_assoc.
      reflexivity.
    + destruct (IH Hfail (mk_state w1 (calls s ++ cs1) (log s)) prices eq_refl)
        as [cs2 Hcs2].
      exists (cs1 ++ cs2). rewrite Hcs2. simpl. rewrite <- app_assoc.
      reflexivity.
Qed.

(** The function up to its [try] block: the link is read off the card and
    the session is sent to the detail page. *)
Lemma hdd_prices_enter (card : soup) (href : string) (s : state W) (w1 : W) :
  subscript (sel_title card) "href" = Ok href ->
  get driver (urljoin BASE_URL href) (browser s) = (w1, Ok tt) ->
  product_hdd_block_prices driver urljoin card s
  = match swatch_block driver
            (mk_state w1 (calls s ++ [CGet (urljoin BASE_URL href)]) (log s))
    with
    | (s', (prices, Ok _)) => (s', Ok prices)
    | (s', (prices, Raise e)) =>
        if isinstance e NoSuchElementException then (s', Ok prices)
        else (s', Raise e)
    end.
Proof.
  intros Hhref Hget.
  unfold product_hdd_block_prices, bind, lift, driver_get, invoke.
  rewrite Hhref, Hget. reflexivity.
Qed.

Lemma swatch_block_fails (s : state W) (e : exn)
  (prices : gmap pyval pyfloat) (w' : W) :
  block_fails driver (browser s) e prices w' ->
  exists cs, swatch_block driver s
             = (mk_state w' (calls s ++ cs) (log s), (prices, Raise e)).
Proof.
  intros Hfail. remember (browser s) as w eqn:Hw.
  destruct Hfail as [w1 e Hsw | w1 sw w2 e Hsw Hbs
                    | w1 sw w2 handled b rest outs w3 e w4 Hsw Hbs Hok Hstep];
    subst w;
    unfold swatch_block, driver_find_element, element_find_elements, invoke;
    rewrite Hsw; simpl.
  - eexists; reflexivity.
  - rewrite Hbs. simpl. rewrite <- app_assoc. eexists; reflexivity.
  - rewrite Hbs. simpl.
    destruct (swatch_loop_fails handled b rest
                (mk_state w2 ((calls s ++ [CFindElement CLASS_NAME "swatches"])
                              ++ [CFindElements sw TAG_NAME "button"]) (log s))
                outs w3 w4 e ∅ Hok Hstep) as [cs Hcs].
    rewrite Hcs. simpl. rewrite <- !app_assoc. eexists; reflexivity.
Qed.

(** C3, as the code has it.  The [except NoSuchElementException] clause
    guards the whole block, not only the lookup of the swatch group: when a
    call in the block raises [e] (the lookup of the swatch group, the listing
    of its buttons, or a step of the loop over the buttons, such as the
    lookup of the displayed price), the function returns the entries stored
    so far if [e] is an element-not-found condition, and lets [e] through to
    the caller if it is anything else. *)
Theorem hdd_block_failure (card : soup) (href : string) (s : state W)
  (w1 w2 : W) (e : exn) (prices : gmap pyval pyfloat) :
  subscript (sel_title card) "href" = Ok href ->
  get driver (urljoin BASE_URL href) (browser s) = (w1, Ok tt) ->
  block_fails driver w1 e prices w2 ->
  exists cs,
    product_hdd_block_prices driver urljoin card s
    = (mk_state w2 (calls s ++ cs) (log s),
       if isinstance e NoSuchElementException then Ok prices else Raise e).
Proof.
  intros Hhref Hget Hfail.
  rewrite (hdd_prices_enter card href s w1 Hhref Hget).
  destruct (swatch_block_fails
              (mk_state w1 (calls s ++ [CGet (urljoin BASE_URL href)]) (log s))
              e prices w2 Hfail) as [cs Hcs].
  rewrite Hcs. simpl. rewrite <- app_assoc.
  exists ([CGet (urljoin BASE_URL href)] ++ cs).
  destruct (isinstance e NoSuchElementException); reflexivity.
Qed.

(** C5.  When the detail page has no swatch group (the lookup raises an
    element-not-found condition), [product_hdd_block_prices] returns the
    empty mapping, raising nothing and logging nothing; and when the card's
    own fields parse, [parse_single_product] returns the record whose
    [additional_info] maps ["hdd_prices"] to the empty mapping. *)
Theorem no_swatches_no_prices (card : soup) (href : string) (s : state W)
  (w1 w2 : W) (e : exn) :
  subscript (sel_title card) "href" = Ok href ->
  get driver (urljoin BASE_URL href) (browser s) = (w1, Ok tt) ->
  find_element driver CLASS_NAME "swatches" w1 = (w2, Raise e) ->
  isinstance e NoSuchElementException = true ->
  let s' := mk_state w2
              (calls s ++ [CGet (urljoin BASE_URL href);
                           CFindElement CLASS_NAME "swatches"])
              (log s) in
  product_hdd_block_prices driver urljoin card s = (s', Ok ∅)
  /\ forall t d pt p rt n,
       subscript (sel_title card) "title" = Ok t ->
       text_of (sel_description card) = Ok d ->
       text_of (sel_price card) = Ok pt ->
       price_of_text pt = Ok p ->
       text_of (sel_review_count card) = Ok rt ->
       reviews_of_text rt = Ok n ->
       exists r,
         parse_single_product driver urljoin card s = (s', Ok r)
         /\ additional_info r !! "hdd_prices"%string = Some ∅
         /\ additional_info r = {[ "hdd_prices"%string := ∅ ]}.
Proof.
  intros Hhref Hget Hsw He s'.
  assert (Hhdd : product_hdd_block_prices driver urljoin card s = (s', Ok ∅)).
  { rewrite (hdd_prices_enter card href s w1 Hhref Hget).
    unfold swatch_block, driver_find_element, invoke. simpl.
    rewrite Hsw, He. unfold s'. rewrite <- app_assoc. reflexivity. }
  split; [exact Hhdd|].
  intros t d pt p rt n Ht Hd Hpt Hp Hrt Hn.
  eexists. unfold parse_single_product, bind, lift, ret.
  rewrite Hhdd, Ht, Hd, Hpt, Hp, Hrt, Hn.
  split; [reflexivity|]. simpl.
  split; [apply lookup_singleton_eq | reflexivity].
Qed.

(** C6.  When the swatch group is found and each of its buttons is handled
    without a failure, the enabled ones storing [entries outs] under
    pairwise distinct values, [product_hdd_block_prices] returns a mapping
    with exactly as many entries as there are enabled buttons: each
    button's value is mapped to the price read right after its click, and
    there is no other key.  Disabled buttons store nothing. *)
Theorem hdd_prices_of_enabled_swatches (card : soup) (href : string)
  (s : state W) (w1 w2 w3 w4 : W) (sw : element) (bs : list element)
  (outs : list (option (pyval * pyfloat))) :
  subscript (sel_title card) "href" = Ok href ->
  get driver (urljoin BASE_URL href) (browser s) = (w1, Ok tt) ->
  find_element driver CLASS_NAME "swatches" w1 = (w2, Ok sw) ->
  find_elements driver sw TAG_NAME "button" w2 = (w3, Ok bs) ->
  buttons_ok driver bs w3 outs w4 ->
  NoDup (entries outs).*1 ->
  exists cs m,
    product_hdd_block_prices driver urljoin card s
    = (mk_state w4 (calls s ++ cs) (log s), Ok m)
    /\ size m = length (entries outs)
    /\ (forall k p, (k, p) ∈ entries outs -> m !! k = Some p)
    /\ (forall k, is_Some (m !! k) -> k ∈ (entries outs).*1).
Proof.
  intros Hhref Hget Hsw Hbs Hok Hnd.
  rewrite (hdd_prices_enter card href s w1 Hhref Hget).
  unfold swatch_block, driver_find_element, element_find_elements, invoke.
  simpl. rewrite Hsw. simpl. rewrite Hbs.
  destruct (swatch_loop_ok bs
              (mk_state w3 (((calls s ++ [CGet (urljoin BASE_URL href)])
                             ++ [CFindElement CLASS_NAME "swatches"])
                            ++ [CFindElements sw TAG_NAME "button"]) (log s))
              outs w4 ∅ Hok) as [cs Hcs].
  rewrite Hcs. simpl. rewrite <- !app_assoc.
  eexists _, (store_all (entries outs) ∅).
  split; [reflexivity|].
  split; [|split].
  - rewrite store_all_size; [rewrite map_size_empty; lia | exact Hnd |].
    intros k _. apply lookup_empty.
  - intros k p Hin. apply store_all_lookup; assumption.
  - intros k Hk. destruct (store_all_lookup_inv _ _ _ Hk) as [Hin | Hm];
      [exact Hin|].
    rewrite lookup_empty in Hm. destruct Hm as [? [=]].
Qed.

End DetailPage.

(** ** Text of a card: prices and review counts *)

Section Text.

Lemma digit_is_plain (n : N) :
  is_digit n = true ->
  (n <? 128)%N = true /\ c_space n = false /\ is_space n = false
  /\ lower n = n /\ (n =? 95)%N = false /\ (n =? 45)%N = false
  /\ (n =? 43)%N = false /\ (n =? 46)%N = false
  /\ n <> 105%N /\ n <> 110%N /\ n <> 36%N.
Proof.
  unfold is_digit. intros H. apply andb_prop in H as [Hlo Hhi].
  apply N.leb_le in Hlo, Hhi.
  assert (Hn : (n = 48 \/ n = 49 \/ n = 50 \/ n = 51 \/ n = 52 \/ n = 53
                \/ n = 54 \/ n = 55 \/ n = 56 \/ n = 57)%N) by lia.
  repeat (destruct Hn as [-> | Hn]); try subst n;
    repeat split; try reflexivity; discriminate.
Qed.

Lemma all_digits_Forall (l : list N) :
  all_digits l = true -> Forall (fun c => is_digit c = true) l.
Proof.
  induction l as [|c l IH]; simpl; intros H; constructor.
  - apply andb_prop in H as [H _]. exact H.
  - apply andb_prop in H as [_ H]. apply IH, H.
Qed.

Lemma Forall_forallb {A} (p : A -> bool) (l : list A) :
  Forall (fun x => p x = true) l -> forallb p l = true.
Proof. induction 1 as [|x l Hx _ IH]; simpl; [|rewrite Hx]; auto. Qed.

Lemma drop_while_none {A} (p : A -> bool) (l : list A) :
  Forall (fun x => p x = false) l -> drop_while p l = l.
Proof. destruct 1 as [|x l Hx _]; simpl; [|rewrite Hx]; reflexivity. Qed.

Lemma drop_while_all {A} (p : A -> bool) (l : list A) :
  Forall (fun x => p x = true) l -> drop_while p l = [].
Proof. induction 1 as [|x l Hx _ IH]; simpl; [|rewrite Hx]; auto. Qed.

Lemma take_while_all {A} (p : A -> bool) (l : list A) :
  Forall (fun x => p x = true) l -> take_while p l = l.
Proof.
  induction 1 as [|x l Hx _ IH]; simpl; [|rewrite Hx, IH]; reflexivity.
Qed.

Lemma strip_plain (l : list N) :
  Forall (fun c => c_space c = false) l -> strip l = l.
Proof.
  intros H. unfold strip.
  rewrite (drop_while_none _ l H).
  rewrite drop_while_none; [apply rev_involutive|].
  apply Forall_forall. intros c Hc. rewrite Forall_forall in H.
  apply H. apply list_elem_of_In, in_rev, list_elem_of_In, Hc.
Qed.

Lemma transform_ascii (l : list N) :
  Forall (fun c => (c <? 128)%N = true) l -> transform l = l.
Proof. intros H. unfold transform. rewrite Forall_forallb by exact H. reflexivity. Qed.

Lemma drop_underscores_plain (prev : option N) (l : list N) :
  Forall (fun c => (c =? 95)%N = false) l ->
  prev <> Some 95%N ->
  drop_underscores prev l = Some l.
Proof.
  intros H. revert prev. induction H as [|c l Hc _ IH]; intros prev Hprev.
  - simpl. destruct prev as [p|]; [|reflexivity].
    destruct (N.eqb_spec p 95) as [->|]; [contradiction|reflexivity].
  - simpl. rewrite Hc.
    assert (Hus : match prev with
                  | Some p => (p =? 95)%N
                  | None => false
                  end = false).
    { destruct prev as [p|]; [|reflexivity].
      apply N.eqb_neq. congruence. }
    rewrite Hus. simpl. rewrite IH; [reflexivity|].
    intros [= ->]. discriminate Hc.
Qed.

Lemma replace1_absent (old : ascii) (new l : list ascii) :
  Forall (fun c => c <> old) l -> replace1 old new l = l.
Proof.
  induction 1 as [|c l Hc _ IH]; simpl; [reflexivity|].
  destruct (decide (c = old)); [contradiction|]. rewrite IH. reflexivity.
Qed.

Lemma decode_ascii (l : list ascii) :
  Forall (fun c => (code c <? 128)%N = true) l -> decode_utf8 l = code <$> l.
Proof.
  induction 1 as [|c l Hc _ IH]; [reflexivity|].
  cbn [decode_utf8]. rewrite Hc, IH. reflexivity.
Qed.

Lemma span_digits_app (ds rest : list N) :
  Forall (fun c => is_digit c = true) ds ->
  match rest with [] => True | c :: _ => is_digit c = false end ->
  span_digits (ds ++ rest) = (ds, rest).
Proof.
  intros Hds Hrest. unfold span_digits.
  induction Hds as [|c ds Hc _ IH]; simpl.
  - destruct rest as [|c rest]; [reflexivity|]. simpl. rewrite Hrest.
    reflexivity.
  - rewrite Hc. injection IH as -> ->. reflexivity.
Qed.

(** [float] on digits with an optional point and further digits. *)
Lemma py_float_decimal (ip : list N) (frac : option (list N)) :
  ip <> [] ->
  all_digits ip = true ->
  all_digits (default [] frac) = true ->
  py_float (ip ++ match frac with Some fp => 46%N :: fp | None => [] end)
  = Ok (float_of_decimal false (dec_value (ip ++ default [] frac))
          (- Z.of_nat (length (default [] frac)))).
Proof.
  intros Hne Hip Hfp.
  apply all_digits_Forall in Hip. apply all_digits_Forall in Hfp.
  set (tl := match frac with Some fp => 46%N :: fp | None => [] end).
  assert (Htl : Forall (fun c => is_digit c = true \/ c = 46%N) tl).
  { destruct frac as [fp|]; subst tl; simpl in *; [|constructor].
    constructor; [right; reflexivity|].
    eapply Forall_impl; [exact Hfp|]. intros c Hc. left. exact Hc. }
  assert (Hall : Forall (fun c => is_digit c = true \/ c = 46%N) (ip ++ tl)).
  { apply Forall_app. split; [|exact Htl].
    eapply Forall_impl; [exact Hip|]. intros c Hc. left. exact Hc. }
  unfold py_float.
  rewrite transform_ascii.
  2:{ eapply Forall_impl; [exact Hall|]. intros c [Hc | ->];
        [apply digit_is_plain, Hc | reflexivity]. }
  rewrite drop_underscores_plain; [| |discriminate].
  2:{ eapply Forall_impl; [exact Hall|]. intros c [Hc | ->];
        [apply digit_is_plain, Hc | reflexivity]. }
  rewrite strip_plain.
  2:{ eapply Forall_impl; [exact Hall|]. intros c [Hc | ->];
        [apply digit_is_plain, Hc | reflexivity]. }
  destruct ip as [|c ip]; [contradiction|].
  apply Forall_cons in Hip as [Hc Hip].
  destruct (digit_is_plain c Hc)
    as (_ & _ & _ & Hlow & _ & Hm & Hp & _ & Hi & Hn & _).
  simpl app at 1. unfold take_sign. rewrite Hm, Hp.
  simpl map. rewrite Hlow.
  destruct (decide (_ = word_inf)) as [[= ->]|_]; [contradiction|].
  destruct (decide (_ = word_infinity)) as [[= ->]|_]; [contradiction|].
  destruct (decide (_ = word_nan)) as [[= ->]|_]; [contradiction|].
  change (c :: ip ++ tl) with ((c :: ip) ++ tl).
  rewrite (span_digits_app (c :: ip) tl).
  2:{ constructor; assumption. }
  2:{ destruct frac; subst tl; simpl; [reflexivity | exact I]. }
  destruct frac as [fp|]; subst tl; simpl default in *.
  - assert (Hspan : span_digits fp = (fp, [])).
    { rewrite <- (app_nil_r fp) at 1.
      apply span_digits_app; [exact Hfp|exact I]. }
    cbv beta iota. change (46 =? 46)%N with true. cbv iota.
    rewrite Hspan. reflexivity.
  - simpl. rewrite app_nil_r. reflexivity.
Qed.

Lemma digit_bytes_ascii (l : list ascii) :
  all_digits (code <$> l) = true ->
  Forall (fun c => (code c <? 128)%N = true) l
  /\ Forall (fun c => c <> "$"%char) l.
Proof.
  intros H. apply all_digits_Forall in H. rewrite Forall_fmap in H.
  split; eapply Forall_impl; try exact H; intros c Hc;
    destruct (digit_is_plain _ Hc) as (Hlt & _ & _ & _ & _ & _ & _ & _ & _ & _ & Hd).
  - exact Hlt.
  - intros ->. apply Hd. reflexivity.
Qed.

Lemma price_of_text_decimal (t : string) (ip : list ascii)
  (frac : option (list ascii)) :
  ip <> [] ->
  all_digits (code <$> ip) = true ->
  all_digits (code <$> default [] frac) = true ->
  chars t = price_chars ip frac ->
  price_of_text t
  = Ok (float_of_decimal false (dec_value (code <$> (ip ++ default [] frac)))
          (- Z.of_nat (length (default [] frac)))).
Proof.
  intros Hne Hip Hfp Ht. unfold price_of_text. rewrite Ht.
  destruct (digit_bytes_ascii ip Hip) as [Hip7 Hipd].
  destruct (digit_bytes_ascii _ Hfp) as [Hfp7 Hfpd].
  set (tl := match frac with Some fp => "."%char :: fp | None => [] end).
  assert (Htl7 : Forall (fun c => (code c <? 128)%N = true) tl).
  { destruct frac; subst tl; simpl in *; [|constructor].
    constructor; [reflexivity | exact Hfp7]. }
  assert (Htld : Forall (fun c => c <> "$"%char) tl).
  { destruct frac; subst tl; simpl in *; [|constructor].
    constructor; [discriminate | exact Hfpd]. }
  unfold price_chars. fold tl. cbn [replace1].
  rewrite decide_True by reflexivity. cbn [app].
  rewrite replace1_absent by (apply Forall_app; split; assumption).
  rewrite decode_ascii by (apply Forall_app; split; assumption).
  rewrite fmap_app.
  pose proof (py_float_decimal (code <$> ip) (fmap (M := option) (fmap (M := list) code) frac)) as Hpy.
  assert (Hfrac : default [] (fmap (M := option) (fmap (M := list) code) frac)
                  = code <$> default [] frac).
  { destruct frac; reflexivity. }
  rewrite Hfrac in Hpy. rewrite length_fmap, <- fmap_app in Hpy.
  replace (code <$> tl)
    with (match fmap (M := option) (fmap (M := list) code) frac with
          | Some fp => 46%N :: fp
          | None => []
          end) by (destruct frac; reflexivity).
  apply Hpy; [|exact Hip|exact Hfp].
  destruct ip; [contradiction|discriminate].
Qed.

Lemma split_from_spaces (l : list N) :
  Forall (fun c => is_space c = true) l -> split_from [] l = [].
Proof.
  induction 1 as [|c l Hc _ IH]; simpl; [reflexivity|].
  rewrite Hc. exact IH.
Qed.

Lemma py_int_raises (l : list N) (e : exn) :
  py_int l = Raise e -> exn_class e = ValueError.
Proof.
  unfold py_int.
  destruct (take_sign (drop_while c_space (transform l))) as [neg body].
  destruct (negb _); [intros [= <-]; reflexivity|].
  destruct (_ <? _)%nat; [intros [= <-]; reflexivity|].
  destruct (take_while digit_or_underscore body);
    [intros [= <-]; reflexivity|].
  destruct (drop_while c_space _); [discriminate|].
  intros [= <-]. reflexivity.
Qed.

End Text.

(** ** Records *)

Section Records.

Context {W : Type} (driver : WebDriver W).
Context (urljoin : string -> string -> string).

(** What a returned record says about the card it was parsed from. *)
Lemma parse_single_product_inv (card : soup) (s s' : state W) (r : Product) :
  parse_single_product driver urljoin card s = (s', Ok r) ->
  exists hdd pt rt,
    product_hdd_block_prices driver urljoin card s = (s', Ok hdd)
    /\ sel_price card = Some pt
    /\ price_of_text pt = Ok (price r)
    /\ sel_review_count card = Some rt
    /\ reviews_of_text rt = Ok (num_of_reviews r)
    /\ additional_info r = {[ "hdd_prices"%string := hdd ]}.
Proof.
  unfold parse_single_product, bind, lift, ret.
  destruct (product_hdd_block_prices driver urljoin card s) as [s1 [hdd|e]];
    [|discriminate].
  destruct (subscript (sel_title card) "title"); [|discriminate].
  destruct (sel_description card); simpl; [|discriminate].
  destruct (sel_price card) as [pt|]; simpl; [|discriminate].
  destruct (price_of_text pt) as [p|] eqn:Hp; [|discriminate].
  destruct (sel_review_count card) as [rt|]; simpl; [|discriminate].
  destruct (reviews_of_text rt) as [n|] eqn:Hn; [|discriminate].
  intros [= <- <-]. exists hdd, pt, rt. simpl. auto 10.
Qed.

(** A review count that cannot be read leaves no record. *)
Lemma parse_single_product_reviews_raise (card : soup) (t : string) (e : exn)
  (s : state W) :
  sel_review_count card = Some t ->
  reviews_of_text t = Raise e ->
  exists s' e', parse_single_product driver urljoin card s = (s', Raise e').
Proof.
  intros Ht He. unfold parse_single_product, bind, lift, ret.
  destruct (product_hdd_block_prices driver urljoin card s) as [s1 [hdd|e1]];
    [|eauto].
  destruct (subscript (sel_title card) "title"); [|eauto].
  destruct (text_of (sel_description card)); [|eauto].
  destruct (text_of (sel_price card)) as [pt|]; [|eauto].
  destruct (price_of_text pt); [|eauto].
  rewrite Ht. simpl. rewrite He. eauto.
Qed.

(** A card whose parts are all there and read well gives its record, in the
    state the detail page was left in. *)
Lemma parse_single_product_ok (card : soup) (s s1 : state W)
  (hdd : gmap pyval pyfloat) (ti d pt rt : string) (p : pyfloat) (n : Z) :
  product_hdd_block_prices driver urljoin card s = (s1, Ok hdd) ->
  subscript (sel_title card) "title" = Ok ti ->
  sel_description card = Some d ->
  sel_price card = Some pt ->
  price_of_text pt = Ok p ->
  sel_review_count card = Some rt ->
  reviews_of_text rt = Ok n ->
  parse_single_product driver urljoin card s
  = (s1, Ok {| title := ti;
               description := d;
               price := p;
               rating := Z.of_nat (length (sel_stars card));
               num_of_reviews := n;
               additional_info := {[ "hdd_prices"%string := hdd ]} |}).
Proof.
  intros Hhdd Hti Hd Hpt Hp Hrt Hn.
  unfold parse_single_product, bind, lift, ret.
  rewrite Hhdd, Hti, Hd, Hpt. simpl. rewrite Hp, Hrt. simpl. rewrite Hn.
  reflexivity.
Qed.

(** When everything before the review count went well, what the review
    count raises is what [parse_single_product] raises. *)
Lemma parse_single_product_reviews_exact (card : soup) (s s1 : state W)
  (hdd : gmap pyval pyfloat) (ti d pt rt : string) (p : pyfloat) (e : exn) :
  product_hdd_block_prices driver urljoin card s = (s1, Ok hdd) ->
  subscript (sel_title card) "title" = Ok ti ->
  sel_description card = Some d ->
  sel_price card = Some pt ->
  price_of_text pt = Ok p ->
  sel_review_count card = Some rt ->
  reviews_of_text rt = Raise e ->
  parse_single_product driver urljoin card s = (s1, Raise e).
Proof.
  intros Hhdd Hti Hd Hpt Hp Hrt Hn.
  unfold parse_single_product, bind, lift, ret.
  rewrite Hhdd, Hti, Hd, Hpt. simpl. rewrite Hp, Hrt. simpl. rewrite Hn.
  reflexivity.
Qed.

(** C8.  For a card whose price text is the dollar sign followed by digits,
    or by digits, a decimal point and further digits, the price expression
    evaluates to the [float] of the number those digits denote: with the
    digits read as the integer [m] and [k] digits after the point, the
    binary64 value nearest to [m * 10^-k], ties to even, and infinity when
    that is out of range.  Every record [parse_single_product] returns for
    the card has this price, and a record with this price is returned
    whenever the detail page yields its prices and the title, the
    description and the review count of the card can be read. *)
Theorem price_of_well_formed_text (card : soup) (t : string)
  (ip : list ascii) (frac : option (list ascii)) :
  sel_price card = Some t ->
  chars t = price_chars ip frac ->
  ip <> [] ->
  all_digits (code <$> ip) = true ->
  all_digits (code <$> default [] frac) = true ->
  let v := float_of_decimal false
             (dec_value (code <$> (ip ++ default [] frac)))
             (- Z.of_nat (length (default [] frac))) in
  price_of_text t = Ok v
  /\ (forall s s' r,
        parse_single_product driver urljoin card s = (s', Ok r) ->
        price r = v)
  /\ (forall s s1 hdd ti d rt n,
        product_hdd_block_prices driver urljoin card s = (s1, Ok hdd) ->
        subscript (sel_title card) "title" = Ok ti ->
        sel_description card = Some d ->
        sel_review_count card = Some rt ->
        reviews_of_text rt = Ok n ->
        parse_single_product driver urljoin card s
        = (s1, Ok {| title := ti;
                     description := d;
                     price := v;
                     rating := Z.of_nat (length (sel_stars card));
                     num_of_reviews := n;
                     additional_info := {[ "hdd_prices"%string := hdd ]} |})).
Proof.
  intros Hsel Ht Hne Hip Hfp v.
  pose proof (price_of_text_decimal t ip frac Hne Hip Hfp Ht) as Hv.
  split; [exact Hv|]. split.
  - intros s s' r Hrun.
    destruct (parse_single_product_inv card s s' r Hrun)
      as (hdd & pt & rt & _ & Hpt & Hp & _).
    rewrite Hsel in Hpt. injection Hpt as <-.
    rewrite Hv in Hp. injection Hp as <-. reflexivity.
  - intros s s1 hdd ti d rt n Hhdd Hti Hd Hrt Hn.
    exact (parse_single_product_ok card s s1 hdd ti d t rt v n
             Hhdd Hti Hd Hsel Hv Hrt Hn).
Qed.

(** C10.  The review count is [int(text.split()[0])], which is partial:
    - on a text that is empty or all whitespace (of Unicode, as [split]
      has it) it raises [IndexError];
    - on a text whose first token [int] rejects it raises the
      [ValueError] of [int];
    - on a text whose first token [int] reads as [z] it evaluates to [z];
    - a card with a review text of the first two kinds makes
      [parse_single_product] raise, whatever the browser does, and when
      all that comes before the review count went well what is raised is
      that [IndexError] or [ValueError];
    - every record returned for a card of the third kind has
      [num_of_reviews = z], and a record is returned, with that count,
      whenever the detail page yields its prices and the title, the
      description and the price of the card can be read. *)
Theorem reviews_extraction_is_partial :
  (forall t, Forall (fun c => is_space c = true) (points t) ->
     exists e, reviews_of_text t = Raise e /\ exn_class e = IndexError)
  /\ (forall t tok rest e,
        split (points t) = tok :: rest -> py_int tok = Raise e ->
        reviews_of_text t = Raise e /\ exn_class e = ValueError)
  /\ (forall t tok rest z,
        split (points t) = tok :: rest -> py_int tok = Ok z ->
        reviews_of_text t = Ok z)
  /\ (forall card t e s,
        sel_review_count card = Some t -> reviews_of_text t = Raise e ->
        exists s' e',
          parse_single_product driver urljoin card s = (s', Raise e'))
  /\ (forall card t e s s1 hdd ti d pt p,
        sel_review_count card = Some t -> reviews_of_text t = Raise e ->
        product_hdd_block_prices driver urljoin card s = (s1, Ok hdd) ->
        subscript (sel_title card) "title" = Ok ti ->
        sel_description card = Some d ->
        sel_price card = Some pt ->
        price_of_text pt = Ok p ->
        parse_single_product driver urljoin card s = (s1, Raise e))
  /\ (forall card t z s s' r,
        sel_review_count card = Some t -> reviews_of_text t = Ok z ->
        parse_single_product driver urljoin card s = (s', Ok r) ->
        num_of_reviews r = z)
  /\ (forall card t z s s1 hdd ti d pt p,
        sel_review_count card = Some t -> reviews_of_text t = Ok z ->
        product_hdd_block_prices driver urljoin card s = (s1, Ok hdd) ->
        subscript (sel_title card) "title" = Ok ti ->
        sel_description card = Some d ->
        sel_price card = Some pt ->
        price_of_text pt = Ok p ->
        parse_single_product driver urljoin card s
        = (s1, Ok {| title := ti;
                     description := d;
                     price := p;
                     rating := Z.of_nat (length (sel_stars card));
                     num_of_reviews := z;
                     additional_info := {[ "hdd_prices"%string := hdd ]} |})).
Proof.
  repeat apply conj.
  - intros t Hsp. unfold reviews_of_text, split.
    rewrite (split_from_spaces _ Hsp). eexists. split; reflexivity.
  - intros t tok rest e Hsplit Hint. split.
    + unfold reviews_of_text. rewrite Hsplit. simpl. exact Hint.
    + exact (py_int_raises _ _ Hint).
  - intros t tok rest z Hsplit Hint. unfold reviews_of_text.
    rewrite Hsplit. simpl. exact Hint.
  - intros card t e s. apply parse_single_product_reviews_raise.
  - intros card t e s s1 hdd ti d pt p Hrt He Hhdd Hti Hd Hpt Hp.
    exact (parse_single_product_reviews_exact card s s1 hdd ti d pt t p e
             Hhdd Hti Hd Hpt Hp Hrt He).
  - intros card t z s s' r Hsel Hz Hrun.
    destruct (parse_single_product_inv card s s' r Hrun)
      as (hdd & pt & rt & _ & _ & _ & Hrt & Hn & _).
    rewrite Hsel in Hrt. injection Hrt as <-.
    rewrite Hz in Hn. injection Hn as <-. reflexivity.
  - intros card t z s s1 hdd ti d pt p Hrt Hz Hhdd Hti Hd Hpt Hp.
    exact (parse_single_product_ok card s s1 hdd ti d pt t p z
             Hhdd Hti Hd Hpt Hp Hrt Hz).
Qed.

End Records.

(** ** The CSV file *)

Section Csv.

Implicit Types (fs : gmap string (list row)) (products : list Product).

Lemma writerow_lookup fs filename r rows :
  fs !! filename = Some rows ->
  writerow filename r fs !! filename = Some (rows ++ [r]).
Proof. intros H. unfold writerow. rewrite lookup_alter_eq, H. reflexivity. Qed.

Lemma writerow_other fs filename other r :
  other <> filename -> writerow filename r fs !! other = fs !! other.
Proof. intros H. unfold writerow. apply lookup_alter_ne. congruence. Qed.

Lemma write_rows_lookup products fs filename rows :
  fs !! filename = Some rows ->
  foldl (fun fs' product => writerow filename (astuple product) fs') fs products
    !! filename
  = Some (rows ++ (astuple <$> products)).
Proof.
  revert fs rows. induction products as [|p products IH]; intros fs rows H.
  - simpl. rewrite app_nil_r. exact H.
  - simpl. rewrite (IH _ (rows ++ [astuple p])).
    + rewrite <- app_assoc. reflexivity.
    + apply writerow_lookup, H.
Qed.

Lemma write_rows_other products fs filename other :
  other <> filename ->
  foldl (fun fs' product => writerow filename (astuple product) fs') fs products
    !! other
  = fs !! other.
Proof.
  intros Hne. revert fs. induction products as [|p products IH]; intros fs;
    [reflexivity|].
  simpl. rewrite IH. apply writerow_other, Hne.
Qed.

(** C9.  Whatever the file held before, after [write_products_to_csv] it
    holds the header row of the six field names in the order [title],
    [description], [price], [rating], [num_of_reviews], [additional_info],
    followed by one row per record, in the order of the list, each with the
    record's six values in the order of the header; for the empty list it
    holds the header row alone.  No other file is touched. *)
Theorem csv_header_then_rows products filename fs :
  write_products_to_csv products filename fs !! filename
  = Some ([CStr "title"; CStr "description"; CStr "price"; CStr "rating";
           CStr "num_of_reviews"; CStr "additional_info"]
          :: map (fun p => [CStr (title p); CStr (description p);
                            CFloat (price p); CInt (rating p);
                            CInt (num_of_reviews p);
                            CDict (additional_info p)]) products)
  /\ write_products_to_csv [] filename fs !! filename
     = Some [[CStr "title"; CStr "description"; CStr "price"; CStr "rating";
              CStr "num_of_reviews"; CStr "additional_info"]]
  /\ forall other, other <> filename ->
       write_products_to_csv products filename fs !! other = fs !! other.
Proof.
  assert (Hhead :
    writerow filename (CStr <$> PRODUCT_FIELDS) (open_w filename fs) !! filename
    = Some [CStr <$> PRODUCT_FIELDS]).
  { rewrite (writerow_lookup _ _ _ []); [reflexivity|].
    apply lookup_insert_eq. }
  split; [|split].
  - unfold write_products_to_csv.
    rewrite (write_rows_lookup _ _ _ _ Hhead). reflexivity.
  - exact Hhead.
  - intros other Hne. unfold write_products_to_csv.
    rewrite write_rows_other by exact Hne.
    rewrite writerow_other by exact Hne.
    unfold open_w. apply lookup_insert_ne. congruence.
Qed.

End Csv.

(** ** Runs on simulated pages *)

Section Runs.

(** C1, on the code.  The first lookup of the control times out; the loop
    logs the error and goes on: it looks the control up again, clicks it,
    and stops only when the control is gone. *)
Theorem pagination_goes_on_after_timeout :
  pagination_loop (scripted script_end) 3 (start timeout_then_more)
  = Some (mk_state []
            [more_lookup; more_lookup; CClick 7%nat; more_lookup]
            [(ERROR,
              "Page load timeout reached while waiting for 'load more' button."%string);
             (INFO,
              "No more 'load more' button found, pagination complete."%string)],
          Ok tt).
Proof. vm_compute. reflexivity. Qed.

(** C2, on the code.  The click fails because the control cannot be
    interacted with; the loop logs an error, not a warning, and stops: the
    control, which would have taken the next click, is not looked up
    again. *)
Theorem pagination_stops_when_not_interactable :
  pagination_loop (scripted script_end) 3 (start blocked_then_more)
  = Some (mk_state
            [RElement (Ok 7%nat); RUnit (Ok tt);
             RElement (Raise no_such_element)]
            [more_lookup; CClick 7%nat]
            [(ERROR,
              "Webdriver error occurred: Message: element not interactable"%string)],
          Ok tt).
Proof. vm_compute. reflexivity. Qed.

Lemma pagination_loop_never_ends (fuel : nat) (s : state (list response)) :
  browser s = [] -> pagination_loop (scripted timeout) fuel s = None.
Proof.
  revert s. induction fuel as [|n IH]; intros [w cs lg]; simpl browser;
    intros ->; [reflexivity|].
  rewrite (pagination_loop_timeout (scripted timeout) n _
             (mk_state [] (cs ++ [more_lookup]) lg) timeout);
    [apply IH | |]; reflexivity.
Qed.

(** C4, on the code.  On a browser that answers every lookup of the control
    with a timeout, [get_page_products] with pagination does not return:
    however many iterations it is given, the loop is still running. *)
Theorem get_page_products_hangs_on_timeouts (fuel : nat) (url : string) :
  get_page_products (scripted timeout) join_urls (fun _ => []) fuel url true
    (start [RUnit (Ok tt)])
  = None.
Proof.
  unfold get_page_products. simpl.
  rewrite pagination_loop_never_ends; reflexivity.
Qed.

(** C3 as stated fails: on a detail page whose swatch group and button are
    found and whose price element is missing after the click, the
    element-not-found condition of the price lookup does not reach the
    caller; the function returns the empty mapping. *)
Lemma price_lookup_failure_is_swallowed :
  product_hdd_block_prices (scripted script_end) join_urls sample_card
    (start detail_without_price)
  = (mk_state []
       [CGet detail_url; CFindElement CLASS_NAME "swatches";
        CFindElements 1%nat TAG_NAME "button"; CGetProperty 2%nat "disabled";
        CClick 2%nat; CFindElement CLASS_NAME "price"]
       [],
     Ok ∅).
Proof. vm_compute. reflexivity. Qed.

End Runs.

(** ** The theorems at work on the simulated pages *)

Section Instances.

(** C7 on a listing that serves two clicks. *)
Lemma pagination_clicks_until_absent_witness :
  offers (scripted script_end) 2 two_more_clicks
  /\ exists w' cs,
       pagination_loop (scripted script_end) 3 (start two_more_clicks)
       = Some (mk_state w' cs
                 [(INFO,
                   "No more 'load more' button found, pagination complete."%string)],
               Ok tt)
       /\ count_clicks cs = 2%nat
       /\ length cs = 5%nat.
Proof.
  assert (H : offers (scripted script_end) 2 two_more_clicks).
  { simpl. do 3 eexists. split; [reflexivity|]. split; [reflexivity|].
    do 3 eexists. split; [reflexivity|]. split; [reflexivity|].
    do 2 eexists. split; reflexivity. }
  split; [exact H|].
  exact (pagination_clicks_until_absent (scripted script_end) 2 3
           (start two_more_clicks) H (le_n 3)).
Defined.

(** C5 on the sample card and a detail page without swatches. *)
Lemma no_swatches_no_prices_witness :
  exists r,
    parse_single_product (scripted script_end) join_urls sample_card
      (start detail_without_swatches)
    = (mk_state [] [CGet detail_url; CFindElement CLASS_NAME "swatches"] [],
       Ok r)
    /\ additional_info r !! "hdd_prices"%string = Some ∅.
Proof.
  destruct (no_swatches_no_prices (scripted script_end) join_urls sample_card
              "test-sites/e-commerce/more/product/1"
              (start detail_without_swatches)
              [RElement (Raise no_such_element)] [] no_such_element
              eq_refl eq_refl eq_refl eq_refl) as [_ Hrec].
  destruct (Hrec "Asus VivoBook"%string "15.6 inch, 4GB, 500GB"%string
              "$24.99"%string (float_of_decimal false 2499 (-2)) "15 reviews"%string 15
              eq_refl eq_refl eq_refl eq_refl eq_refl eq_refl)
    as (r & Hrun & Hinfo & _).
  exists r. split; [exact Hrun | exact Hinfo].
Defined.

(** C3, as the code has it, on the detail page without a price element. *)
Lemma hdd_block_failure_witness :
  block_fails (scripted script_end)
    [RElement (Ok 1%nat); RElements (Ok [2%nat]);
     RValue (Ok (PyBool false)); RUnit (Ok tt);
     RElement (Raise no_such_element)]
    no_such_element ∅ []
  /\ exists cs,
       product_hdd_block_prices (scripted script_end) join_urls sample_card
         (start detail_without_price)
       = (mk_state [] cs [], Ok ∅).
Proof.
  assert (H : block_fails (scripted script_end)
                [RElement (Ok 1%nat); RElements (Ok [2%nat]);
                 RValue (Ok (PyBool false)); RUnit (Ok tt);
                 RElement (Raise no_such_element)]
                no_such_element ∅ []).
  { eapply (fails_at_button _ _ _ 1%nat _ [] 2%nat [] []).
    - reflexivity.
    - reflexivity.
    - constructor.
    - eapply step_price_raises; reflexivity. }
  split; [exact H|].
  exact (hdd_block_failure (scripted script_end) join_urls sample_card
           "test-sites/e-commerce/more/product/1"
           (start detail_without_price) _ _ no_such_element ∅
           eq_refl eq_refl H).
Defined.

(** C6 on a detail page with two enabled buttons and a disabled one. *)
Lemma hdd_prices_of_enabled_swatches_witness :
  exists cs m,
    product_hdd_block_prices (scripted script_end) join_urls sample_card
      (start detail_three_buttons)
    = (mk_state [] cs [], Ok m)
    /\ size m = 2%nat
    /\ m !! PyStr "128" = Some (float_of_decimal false 10050 (-2))
    /\ m !! PyStr "256" = Some (float_of_decimal false 120 0).
Proof.
  pose (outs := [Some (PyStr "128", float_of_decimal false 10050 (-2)); None;
                 Some (PyStr "256", float_of_decimal false 120 0)]).
  assert (Hok : buttons_ok (scripted script_end) [2%nat; 3%nat; 4%nat]
                  (drop 3 detail_three_buttons) outs []).
  { eapply buttons_ok_cons.
    { eapply step_stored; reflexivity. }
    eapply buttons_ok_cons.
    { eapply step_skipped; reflexivity. }
    eapply buttons_ok_cons.
    { eapply step_stored; reflexivity. }
    constructor. }
  assert (Hnd : NoDup (entries outs).*1).
  { simpl. apply NoDup_cons. split.
    - intros Hin. apply list_elem_of_singleton in Hin. discriminate Hin.
    - apply NoDup_singleton. }
  destruct (hdd_prices_of_enabled_swatches (scripted script_end) join_urls
              sample_card "test-sites/e-commerce/more/product/1"
              (start detail_three_buttons) _ _ _ [] 1%nat [2%nat; 3%nat; 4%nat]
              outs eq_refl eq_refl eq_refl eq_refl Hok Hnd)
    as (cs & m & Hrun & Hsize & Hin & _).
  exists cs, m. split; [exact Hrun|]. split; [exact Hsize|].
  split; apply Hin; simpl.
  - left.
  - right. left.
Defined.

(** C8 on the price text [$24.99], the nearest binary64 value being
    [7034059667999293 * 2^-48], and on a price too large for a [float]. *)
Lemma price_of_well_formed_text_witness :
  chars "$24.99" = price_chars (chars "24") (Some (chars "99"))
  /\ price_of_text "$24.99"
     = Ok (SpecFloat.S754_finite false 7034059667999293 (-48))
  /\ (forall s s' r,
        parse_single_product (scripted script_end) join_urls sample_card s
        = (s', Ok r) ->
        price r = SpecFloat.S754_finite false 7034059667999293 (-48))
  /\ (exists s1,
        parse_single_product (scripted script_end) join_urls sample_card
          (start detail_without_swatches)
        = (s1, Ok sample_record))
  /\ price_of_text long_price = Ok (SpecFloat.S754_infinity false).
Proof.
  destruct (price_of_well_formed_text (scripted script_end) join_urls
              sample_card "$24.99" (chars "24") (Some (chars "99"))
              eq_refl eq_refl ltac:(discriminate) eq_refl eq_refl)
    as (Hv & Hall & Hrun).
  split; [reflexivity|]. split; [exact Hv|]. split; [exact Hall|]. split.
  - eexists.
    exact (Hrun (start detail_without_swatches) _ ∅ _ _ _ 15
             eq_refl eq_refl eq_refl eq_refl eq_refl).
  - destruct (price_of_well_formed_text (scripted script_end) join_urls
                (card_priced long_price) long_price long_digits None)
      as [Hbig _].
    + reflexivity.
    + vm_compute. reflexivity.
    + discriminate.
    + vm_compute. reflexivity.
    + reflexivity.
    + refine (eq_trans Hbig _). vm_compute. reflexivity.
Defined.

(** C10 on review texts of the three kinds. *)
Lemma reviews_extraction_is_partial_witness :
  reviews_of_text "15 reviews" = Ok 15
  /\ reviews_of_text ("15" +:+ nbsp +:+ "reviews") = Ok 15
  /\ (exists e, reviews_of_text "   " = Raise e /\ exn_class e = IndexError)
  /\ (exists e, reviews_of_text nbsp = Raise e /\ exn_class e = IndexError)
  /\ (exists e, reviews_of_text "no reviews" = Raise e
                /\ exn_class e = ValueError)
  /\ (forall s s' r,
        parse_single_product (scripted script_end) join_urls sample_card s
        = (s', Ok r) ->
        num_of_reviews r = 15)
  /\ (exists s1,
        parse_single_product (scripted script_end) join_urls sample_card
          (start detail_without_swatches)
        = (s1, Ok sample_record))
  /\ (exists s1,
        parse_single_product (scripted script_end) join_urls
          (card_reviewed "no reviews") (start detail_without_swatches)
        = (s1, Raise invalid_literal)).
Proof.
  destruct (reviews_extraction_is_partial (scripted script_end) join_urls)
    as (Hempty & Hbad & Hgood & _ & Hraise & Hrec & Hrun).
  repeat apply conj.
  - exact (Hgood "15 reviews"%string (points "15") [points "reviews"] 15
             eq_refl eq_refl).
  - exact (Hgood ("15" +:+ nbsp +:+ "reviews")%string (points "15")
             [points "reviews"] 15 eq_refl eq_refl).
  - apply Hempty. repeat constructor.
  - apply Hempty. repeat constructor.
  - eexists.
    exact (Hbad "no reviews"%string (points "no") [points "reviews"] _
             eq_refl eq_refl).
  - intros s s' r. exact (Hrec sample_card "15 reviews"%string 15 s s' r
                            eq_refl eq_refl).
  - eexists.
    exact (Hrun sample_card "15 reviews"%string 15
             (start detail_without_swatches) _ ∅ _ _ _ _
             eq_refl eq_refl eq_refl eq_refl eq_refl eq_refl eq_refl).
  - eexists.
    exact (Hraise (card_reviewed "no reviews") "no reviews"%string _
             (start detail_without_swatches) _ ∅ _ _ _ _
             eq_refl eq_refl eq_refl eq_refl eq_refl eq_refl eq_refl).
Defined.

End Instances.

(** * Further properties of the code *)

(** ** The pagination loop and [get_page_products] *)

Section PageRun.

Context {W : Type} (driver : WebDriver W).
Context (urljoin : string -> string -> string).
Context (select_thumbnails : string -> list soup).

Lemma count_lookups_app (cs ds : list call) :
  count_lookups (cs ++ ds) = (count_lookups cs + count_lookups ds)%nat.
Proof.
  unfold count_lookups. rewrite List.filter_app, length_app. reflexivity.
Qed.

(** One iteration makes one lookup of the control and at most one click. *)
Lemma load_more_calls (s : state W) :
  exists w r cs,
    load_more driver s = (mk_state w (calls s ++ cs) (log s), r)
    /\ (cs = [more_lookup] \/ exists el, cs = [more_lookup; CClick el]).
Proof.
  destruct (find_element driver CLASS_NAME MORE (browser s)) as [w1 [el|e]]
    eqn:Hfind.
  - destruct (click driver el w1) as [w2 r] eqn:Hclick.
    exists w2, r, [more_lookup; CClick el].
    split; [apply (load_more_click driver s w1 w2 el r Hfind Hclick)|].
    right. exists el. reflexivity.
  - exists w1, (@Raise unit e), [more_lookup].
    split; [apply (load_more_absent driver s w1 e Hfind)|]. left. reflexivity.
Qed.

Lemma iteration_calls (cs : list call) :
  cs = [more_lookup] \/ (exists el, cs = [more_lookup; CClick el]) ->
  Forall (fun c => is_more_lookup c || is_click c = true) cs
  /\ count_lookups cs = 1%nat
  /\ (count_clicks cs <= 1)%nat.
Proof.
  intros [-> | [el ->]]; (split; [repeat constructor|]); split;
    vm_compute; lia.
Qed.

(** What an iteration raises is what the browser raised, on the lookup or
    on the click; nothing is logged for it. *)
Lemma load_more_raised (s s1 : state W) (e : exn) :
  load_more driver s = (s1, Raise e) ->
  raised_by_browser driver (browser s) (browser s1) e /\ log s1 = log s.
Proof.
  destruct (find_element driver CLASS_NAME MORE (browser s)) as [w1 [el|e1]]
    eqn:Hfind.
  - destruct (click driver el w1) as [w2 r] eqn:Hclick.
    rewrite (load_more_click driver s w1 w2 el r Hfind Hclick).
    intros [= <- ->]. split; [|reflexivity].
    right. exists el, w1. split; [exact Hfind | exact Hclick].
  - rewrite (load_more_absent driver s w1 e1 Hfind).
    intros [= <- ->]. split; [|reflexivity]. left. exact Hfind.
Qed.

(** X1.  Whenever the pagination loop returns, it returns normally, unless
    the browser raised something that is not an [Exception] (an interrupt,
    say), which is passed on as it is: what the loop raises is what the
    lookup of the control, or the click on it, raised in the last
    iteration, in a state [s0] that the iterations before it led to, and
    the loop leaves the session as that call left it, with nothing
    logged. *)
Theorem pagination_loop_outcome (fuel : nat) (s s' : state W)
  (r : result unit) :
  pagination_loop driver fuel s = Some (s', r) ->
  r = Ok tt
  \/ exists e s0,
       r = Raise e
       /\ isinstance e Exception = false
       /\ rtc (goes_on driver) s s0
       /\ load_more driver s0 = (s', Raise e)
       /\ raised_by_browser driver (browser s0) (browser s') e
       /\ log s' = log s0.
Proof.
  revert s. induction fuel as [|n IH]; intros s; simpl; [discriminate|].
  assert (Hnext : forall s1,
            goes_on driver s s1 ->
            pagination_loop driver n s1 = Some (s', r) ->
            r = Ok tt
            \/ exists e s0,
                 r = Raise e
                 /\ isinstance e Exception = false
                 /\ rtc (goes_on driver) s s0
                 /\ load_more driver s0 = (s', Raise e)
                 /\ raised_by_browser driver (browser s0) (browser s') e
                 /\ log s' = log s0).
  { intros s1 Hstep Hrun.
    destruct (IH s1 Hrun) as [Hok | (e & s0 & Hr & He & Hreach & Hrest)];
      [left; exact Hok|].
    right. exists e, s0. split; [exact Hr|]. split; [exact He|].
    split; [|exact Hrest]. eapply rtc_l; [exact Hstep | exact Hreach]. }
  destruct (load_more driver s) as [s1 [[]|e1]] eqn:Hlm.
  { apply Hnext. apply go_clicked. exact Hlm. }
  destruct (isinstance e1 NoSuchElementException) eqn:Hno;
    [intros [= <- <-]; left; reflexivity|].
  destruct (isinstance e1 ElementClickInterceptedException) eqn:Hic.
  { apply Hnext. eapply go_intercepted; eassumption. }
  destruct (isinstance e1 TimeoutException) eqn:Hto.
  { apply Hnext. eapply go_timed_out; eassumption. }
  destruct (isinstance e1 WebDriverException);
    [intros [= <- <-]; left; reflexivity|].
  destruct (isinstance e1 Exception) eqn:He;
    [intros [= <- <-]; left; reflexivity|].
  intros [= <- <-]. right. exists e1, s.
  destruct (load_more_raised s s1 e1 Hlm) as [Hraised Hlog].
  split; [reflexivity|]. split; [exact He|]. split; [apply rtc_refl|].
  split; [exact Hlm|]. split; [exact Hraised | exact Hlog].
Qed.

Lemma pagination_loop_effects (fuel : nat) (s s' : state W)
  (r : result unit) :
  pagination_loop driver fuel s = Some (s', r) ->
  exists cs lg,
    calls s' = calls s ++ cs
    /\ log s' = log s ++ lg
    /\ Forall (fun c => is_more_lookup c || is_click c = true) cs
    /\ (count_clicks cs <= count_lookups cs <= fuel)%nat
    /\ (length lg <= count_lookups cs)%nat.
Proof.
  revert s. induction fuel as [|n IH]; intros s; simpl; [discriminate|].
  destruct (load_more_calls s) as (w & r0 & cs0 & Hlm & Hcs0).
  destruct (iteration_calls cs0 Hcs0) as (Hall & Hlook & Hclick).
  rewrite Hlm.
  assert (Hstop : forall lg0, (length lg0 <= 1)%nat ->
            exists cs lg,
              calls s ++ cs0 = calls s ++ cs
              /\ log s ++ lg0 = log s ++ lg
              /\ Forall (fun c => is_more_lookup c || is_click c = true) cs
              /\ (count_clicks cs <= count_lookups cs <= S n)%nat
              /\ (length lg <= count_lookups cs)%nat).
  { intros lg0 Hlg0. exists cs0, lg0. repeat split; try assumption; lia. }
  assert (Hgo : forall lg0, (length lg0 <= 1)%nat ->
            pagination_loop driver n
              (mk_state w (calls s ++ cs0) (log s ++ lg0)) = Some (s', r) ->
            exists cs lg,
              calls s' = calls s ++ cs
              /\ log s' = log s ++ lg
              /\ Forall (fun c => is_more_lookup c || is_click c = true) cs
              /\ (count_clicks cs <= count_lookups cs <= S n)%nat
              /\ (length lg <= count_lookups cs)%nat).
  { intros lg0 Hlg0 Hrun.
    destruct (IH _ Hrun) as (cs & lg & Hc & Hl & Hf & Hn & Hlen).
    simpl in Hc, Hl.
    exists (cs0 ++ cs), (lg0 ++ lg).
    rewrite Hc, Hl, <- !app_assoc.
    rewrite count_clicks_app, count_lookups_app, length_app.
    repeat split; try reflexivity; try lia.
    apply Forall_app. split; assumption. }
  destruct r0 as [[]|e1].
  - intros Hrun. apply (Hgo []); [simpl; lia|]. rewrite app_nil_r. exact Hrun.
  - destruct (isinstance e1 NoSuchElementException).
    { intros [= <- <-]. simpl. apply Hstop. simpl. lia. }
    destruct (isinstance e1 ElementClickInterceptedException).
    { apply Hgo. simpl. lia. }
    destruct (isinstance e1 TimeoutException).
    { apply Hgo. simpl. lia. }
    destruct (isinstance e1 WebDriverException).
    { intros [= <- <-]. simpl. apply Hstop. simpl. lia. }
    destruct (isinstance e1 Exception).
    { intros [= <- <-]. simpl. apply Hstop. simpl. lia. }
    intros [= <- <-]. simpl.
    destruct (Hstop [] ltac:(simpl; lia)) as (cs & lg & Hc & Hl & Hrest).
    exists cs, lg. rewrite app_nil_r in Hl. auto.
Qed.

(** X2.  All the loop does to the session is look the control up and click
    it: it never navigates and reads nothing else.  It makes at most one
    lookup per iteration, never more clicks than lookups, and logs at most
    one line per lookup; what was logged and called before stays. *)
Theorem pagination_loop_trace (fuel : nat) (s s' : state W) (r : result unit) :
  pagination_loop driver fuel s = Some (s', r) ->
  exists cs lg,
    calls s' = calls s ++ cs
    /\ log s' = log s ++ lg
    /\ Forall (fun c => is_more_lookup c || is_click c = true) cs
    /\ (count_clicks cs <= count_lookups cs <= fuel)%nat
    /\ (length lg <= count_lookups cs)%nat.
Proof. apply pagination_loop_effects. Qed.


Lemma get_page_products_enter (fuel : nat) (url : string) (paginate : bool)
  (s : state W) (w1 : W) (r : result unit) :
  get driver url (browser s) = (w1, r) ->
  (do _ <~ logging INFO ("Start scraping products from " +:+ url) ;;
   driver_get driver url) s
  = (mk_state w1 (calls s ++ [CGet url]) (log s ++ [start_line url]), r).
Proof.
  intros Hget. unfold bind, logging, driver_get, invoke. simpl.
  rewrite Hget. reflexivity.
Qed.

(** X3.  A failure of the navigation to the listing is not handled: the
    function raises it, with or without pagination, having logged its first
    line and done nothing else on the session. *)
Theorem get_page_products_navigation_failure (fuel : nat) (url : string)
  (paginate : bool) (s : state W) (w1 : W) (e : exn) :
  get driver url (browser s) = (w1, Raise e) ->
  get_page_products driver urljoin select_thumbnails fuel url paginate s
  = Some (mk_state w1 (calls s ++ [CGet url]) (log s ++ [start_line url]),
          Raise e).
Proof.
  intros Hget. unfold get_page_products.
  rewrite (get_page_products_enter fuel url paginate s w1 _ Hget).
  reflexivity.
Qed.

(** X4.  Without pagination the "load more" control is never looked up:
    after the navigation the page source is read at once and its cards are
    parsed, a failure to read it being raised; one line is logged, and the
    bound on the iterations plays no part. *)
Theorem get_page_products_single_page (fuel : nat) (url : string)
  (s : state W) (w1 w2 : W) (r : result string) :
  get driver url (browser s) = (w1, Ok tt) ->
  page_source driver w1 = (w2, r) ->
  let s2 := mk_state w2 (calls s ++ [CGet url; CPageSource])
              (log s ++ [start_line url]) in
  get_page_products driver urljoin select_thumbnails fuel url false s
  = Some match r with
         | Ok src => parse_all driver urljoin (select_thumbnails src) s2
         | Raise e => (s2, Raise e)
         end.
Proof.
  intros Hget Hsrc s2. unfold get_page_products.
  rewrite (get_page_products_enter fuel url false s w1 _ Hget).
  unfold bind, driver_page_source, invoke. simpl. rewrite Hsrc.
  rewrite <- app_assoc. destruct r; reflexivity.
Qed.

Lemma pagination_loop_offers (K fuel : nat) (s : state W) :
  offers driver K (browser s) ->
  (K < fuel)%nat ->
  exists w' cs,
    pagination_loop driver fuel s
    = Some (mk_state w' (calls s ++ cs) (log s ++ [complete_line]), Ok tt)
    /\ count_clicks cs = K
    /\ count_lookups cs = S K.
Proof.
  revert fuel s. induction K as [|K IH]; intros [|n] s Hoff Hfuel; try lia.
  - destruct Hoff as (w' & e & Hfind & He).
    exists w', [more_lookup]. split; [|split; reflexivity].
    rewrite (pagination_loop_absent driver n s _ e
               (load_more_absent driver s w' e Hfind) He).
    reflexivity.
  - destruct Hoff as (w1 & el & w2 & Hfind & Hclick & Hoff).
    destruct (IH n (mk_state w2 (calls s ++ [more_lookup; CClick el]) (log s))
                Hoff ltac:(lia)) as (w' & cs & Hrun & Hc & Hl).
    exists w', ([more_lookup; CClick el] ++ cs).
    rewrite count_clicks_app, count_lookups_app, Hc, Hl.
    split; [|split; reflexivity].
    rewrite (pagination_loop_clicked driver n s _
               (load_more_click driver s w1 w2 el (Ok tt) Hfind Hclick)).
    rewrite Hrun. simpl. rewrite <- app_assoc. reflexivity.
Qed.

(** The loop on a listing that offers the control for the clicks [els]. *)
Lemma pagination_loop_offered (els : list element) (w w' : W) :
  offered driver els w w' ->
  forall (fuel : nat) (s : state W),
    browser s = w ->
    (length els < fuel)%nat ->
    pagination_loop driver fuel s
    = Some (mk_state w' (calls s ++ more_calls els) (log s ++ [complete_line]),
            Ok tt).
Proof.
  induction 1 as [w w' e Hfind He | el els w w1 w2 w' Hfind Hclick _ IH];
    intros [|n] s Hs Hfuel; simpl in Hfuel; try lia; subst w.
  - rewrite (pagination_loop_absent driver n s _ e
               (load_more_absent driver s w' e Hfind) He).
    reflexivity.
  - rewrite (pagination_loop_clicked driver n s _
               (load_more_click driver s w1 w2 el (Ok tt) Hfind Hclick)).
    rewrite (IH n (mk_state w2 (calls s ++ [more_lookup; CClick el]) (log s))
               eq_refl ltac:(lia)).
    simpl. unfold more_calls. simpl. rewrite <- app_assoc. reflexivity.
Qed.

(** X5.  With pagination, on a listing that offers the control for the
    clicks [els] and then no more, the function navigates, looks the
    control up and clicks it for each of [els] in turn, looks it up once
    more, and only then reads the page source, once, from the browser as
    that last lookup left it ([w2]); the cards of the source read are
    parsed from there, a failure to read it being raised.  The log holds
    the start line and the line that pagination is complete. *)
Theorem get_page_products_paginated (els : list element) (fuel : nat)
  (url : string) (s : state W) (w1 w2 w3 : W) (r : result string) :
  get driver url (browser s) = (w1, Ok tt) ->
  offered driver els w1 w2 ->
  (length els < fuel)%nat ->
  page_source driver w2 = (w3, r) ->
  let s3 := mk_state w3
              (calls s ++ CGet url :: more_calls els ++ [CPageSource])
              (log s ++ [start_line url; complete_line]) in
  get_page_products driver urljoin select_thumbnails fuel url true s
  = Some match r with
         | Ok src => parse_all driver urljoin (select_thumbnails src) s3
         | Raise e => (s3, Raise e)
         end.
Proof.
  intros Hget Hoff Hfuel Hsrc s3. unfold get_page_products.
  rewrite (get_page_products_enter fuel url true s w1 _ Hget).
  rewrite (pagination_loop_offered els w1 w2 Hoff fuel
             (mk_state w1 (calls s ++ [CGet url]) (log s ++ [start_line url]))
             eq_refl Hfuel).
  unfold bind, driver_page_source, invoke. simpl. rewrite Hsrc.
  subst s3. rewrite <- !app_assoc. simpl. destruct r; reflexivity.
Qed.

Lemma parse_all_in_turn (cards : list soup) (s s' : state W)
  (ps : list Product) :
  parse_all driver urljoin cards s = (s', Ok ps) ->
  parsed_in_turn driver urljoin cards ps s s'.
Proof.
  revert s ps. induction cards as [|c cards IH]; intros s ps; simpl.
  - intros [= <- <-]. constructor.
  - unfold bind.
    destruct (parse_single_product driver urljoin c s) as [s1 [p|e]] eqn:Hp;
      [|discriminate].
    destruct (parse_all driver urljoin cards s1) as [s2 [ps'|e]] eqn:Hps;
      [|discriminate].
    intros [= <- <-]. econstructor; [exact Hp | apply IH, Hps].
Qed.

Lemma parsed_in_turn_length (cards : list soup) (ps : list Product)
  (s s' : state W) :
  parsed_in_turn driver urljoin cards ps s s' -> length ps = length cards.
Proof. induction 1; simpl; congruence. Qed.

(** X6.  The records a page yields are the parses of the cards of the page
    source the browser gave: when the function returns records, the
    navigation succeeded, the pagination (if asked for) ended normally in
    a state [s2], the page source [src] was read there, and the records are
    those of the cards selected from [src], one per card and in their
    order, each card parsed in the state the card before left; the function
    ends in the state the last card left. *)
Theorem get_page_products_records (fuel : nat) (url : string)
  (paginate : bool) (s s' : state W) (ps : list Product) :
  get_page_products driver urljoin select_thumbnails fuel url paginate s
  = Some (s', Ok ps) ->
  exists w1 s2 w3 src,
    get driver url (browser s) = (w1, Ok tt)
    /\ (let s1 := mk_state w1 (calls s ++ [CGet url])
                    (log s ++ [start_line url]) in
        if paginate then pagination_loop driver fuel s1 = Some (s2, Ok tt)
        else s2 = s1)
    /\ page_source driver (browser s2) = (w3, Ok src)
    /\ parsed_in_turn driver urljoin (select_thumbnails src) ps
         (mk_state w3 (calls s2 ++ [CPageSource]) (log s2)) s'
    /\ length ps = length (select_thumbnails src).
Proof.
  unfold get_page_products.
  destruct (get driver url (browser s)) as [w1 r0] eqn:Hget.
  rewrite (get_page_products_enter fuel url paginate s w1 r0 Hget).
  destruct r0 as [[]|e]; [|discriminate].
  assert (Hafter : forall s2,
    (do src <~ driver_page_source driver ;;
     parse_all driver urljoin (select_thumbnails src)) s2 = (s', Ok ps) ->
    exists w3 src,
      page_source driver (browser s2) = (w3, Ok src)
      /\ parsed_in_turn driver urljoin (select_thumbnails src) ps
           (mk_state w3 (calls s2 ++ [CPageSource]) (log s2)) s'
      /\ length ps = length (select_thumbnails src)).
  { intros s2. unfold bind, driver_page_source, invoke.
    destruct (page_source driver (browser s2)) as [w3 [src|e]] eqn:Hsrc;
      [|discriminate].
    simpl. intros Hall. exists w3, src. apply parse_all_in_turn in Hall.
    split; [reflexivity|]. split; [exact Hall|].
    eapply parsed_in_turn_length, Hall. }
  destruct paginate.
  - destruct (pagination_loop driver fuel _) as [[s2 [[]|e]]|] eqn:Hloop;
      [|discriminate|discriminate].
    simpl. intros [= H]. destruct (Hafter s2 H) as (w3 & src & Hrest).
    exists w1, s2, w3, src. split; [reflexivity|].
    split; [exact Hloop | exact Hrest].
  - intros [= H]. destruct (Hafter _ H) as (w3 & src & Hrest).
    exists w1, (mk_state w1 (calls s ++ [CGet url]) (log s ++ [start_line url])),
      w3, src.
    split; [reflexivity|]. split; [reflexivity | exact Hrest].
Qed.

Lemma parse_all_app (handled rest : list soup) (s s1 : state W)
  (ps : list Product) :
  parse_all driver urljoin handled s = (s1, Ok ps) ->
  parse_all driver urljoin (handled ++ rest) s
  = match parse_all driver urljoin rest s1 with
    | (s2, Ok qs) => (s2, Ok (ps ++ qs))
    | (s2, Raise e) => (s2, Raise e)
    end.
Proof.
  revert s ps. induction handled as [|c handled IH]; intros s ps; simpl.
  - intros [= <- <-]. destruct (parse_all driver urljoin rest s) as [s2 [qs|e]];
      reflexivity.
  - unfold bind.
    destruct (parse_single_product driver urljoin c s) as [s0 [p|e]];
      [|discriminate].
    destruct (parse_all driver urljoin handled s0) as [s0' [ps'|e]] eqn:Hh;
      [|discriminate].
    intros [= <- <-]. rewrite (IH s0 ps' Hh).
    destruct (parse_all driver urljoin rest s0') as [s2 [qs|e]]; reflexivity.
Qed.

(** X7.  The cards are parsed in order and the first one that fails ends
    the list: its exception is raised, no record is returned, and the cards
    after it are not visited (the session stays as the failing card left
    it). *)
Theorem parse_all_stops_at_first_failure (handled rest : list soup)
  (card : soup) (s s1 s2 : state W) (ps : list Product) (e : exn) :
  parse_all driver urljoin handled s = (s1, Ok ps) ->
  parse_single_product driver urljoin card s1 = (s2, Raise e) ->
  parse_all driver urljoin (handled ++ card :: rest) s = (s2, Raise e).
Proof.
  intros Hh Hc. rewrite (parse_all_app handled (card :: rest) s s1 ps Hh).
  simpl. unfold bind. rewrite Hc. reflexivity.
Qed.

End PageRun.
(** X1 on a click that is interrupted after one that went through. *)
Lemma pagination_loop_outcome_witness :
  pagination_loop (scripted script_end) 2 (start interrupted_click)
  = Some (mk_state [] [more_lookup; CClick 7%nat; more_lookup; CClick 7%nat]
            [],
          Raise interrupt)
  /\ (@Raise unit interrupt = Ok tt
      \/ exists e s0,
           @Raise unit interrupt = Raise e
           /\ isinstance e Exception = false
           /\ rtc (goes_on (scripted script_end)) (start interrupted_click) s0
           /\ load_more (scripted script_end) s0
              = (mk_state []
                   [more_lookup; CClick 7%nat; more_lookup; CClick 7%nat] [],
                 Raise e)
           /\ raised_by_browser (scripted script_end) (browser s0) [] e
           /\ [] = log s0).
Proof.
  split; [reflexivity|].
  exact (pagination_loop_outcome (scripted script_end) 2
           (start interrupted_click) _ (Raise interrupt) eq_refl).
Defined.

(** X2 on the listing that serves two clicks. *)
Lemma pagination_loop_trace_witness :
  exists cs lg,
    [more_lookup; CClick 7%nat; more_lookup; CClick 7%nat; more_lookup]
    = [] ++ cs
    /\ [(INFO, "No more 'load more' button found, pagination complete."%string)]
       = [] ++ lg
    /\ Forall (fun c => is_more_lookup c || is_click c = true) cs
    /\ (count_clicks cs <= count_lookups cs <= 3)%nat
    /\ (length lg <= count_lookups cs)%nat.
Proof.
  exact (pagination_loop_trace (scripted script_end) 3 (start two_more_clicks)
           _ (Ok tt) eq_refl).
Defined.

(** X3 on a browser whose navigation times out. *)
Lemma get_page_products_navigation_failure_witness :
  get_page_products (scripted script_end) join_urls no_cards 0 listing_url true
    (start [RUnit (Raise timeout)])
  = Some (mk_state [] [CGet listing_url] [start_line listing_url],
          Raise timeout).
Proof.
  exact (get_page_products_navigation_failure (scripted script_end) join_urls
           no_cards 0 listing_url true (start [RUnit (Raise timeout)]) []
           timeout eq_refl).
Defined.

(** X4 on a listing of one card. *)
Lemma get_page_products_single_page_witness :
  get_page_products (scripted script_end) join_urls one_card 0 listing_url
    false (start single_listing)
  = Some (mk_state []
            [CGet listing_url; CPageSource; CGet detail_url;
             CFindElement CLASS_NAME "swatches"]
            [start_line listing_url],
          Ok [sample_record]).
Proof.
  exact (get_page_products_single_page (scripted script_end) join_urls one_card
           0 listing_url (start single_listing) _ _ (Ok "<html>"%string)
           eq_refl eq_refl).
Defined.

(** X5 on a listing that serves two clicks. *)
Lemma get_page_products_paginated_witness :
  get_page_products (scripted script_end) join_urls no_cards 3 listing_url
    true (start paginated_listing)
  = Some (mk_state []
            [CGet listing_url; more_lookup; CClick 7%nat; more_lookup;
             CClick 7%nat; more_lookup; CPageSource]
            [start_line listing_url; complete_line],
          Ok []).
Proof.
  assert (H : offered (scripted script_end) [7%nat; 7%nat]
                (two_more_clicks ++ [RText (Ok EmptyString)])
                [RText (Ok EmptyString)]).
  { eapply offered_more; [reflexivity | reflexivity |].
    eapply offered_more; [reflexivity | reflexivity |].
    eapply offered_last; reflexivity. }
  exact (get_page_products_paginated (scripted script_end) join_urls no_cards
           [7%nat; 7%nat] 3 listing_url (start paginated_listing) _ _ _
           (Ok EmptyString) eq_refl H (le_n 3) eq_refl).
Defined.

(** X6 on a listing of one card. *)
Lemma get_page_products_records_witness :
  exists w1 s2 w3 src,
    get (scripted script_end) listing_url (browser (start single_listing))
    = (w1, Ok tt)
    /\ s2 = mk_state w1 [CGet listing_url] [start_line listing_url]
    /\ page_source (scripted script_end) (browser s2) = (w3, Ok src)
    /\ parsed_in_turn (scripted script_end) join_urls (one_card src)
         [sample_record]
         (mk_state w3 (calls s2 ++ [CPageSource]) (log s2))
         (mk_state []
            [CGet listing_url; CPageSource; CGet detail_url;
             CFindElement CLASS_NAME "swatches"]
            [start_line listing_url])
    /\ length [sample_record] = length (one_card src).
Proof.
  exact (get_page_products_records (scripted script_end) join_urls one_card
           0 listing_url false (start single_listing)
           (mk_state []
              [CGet listing_url; CPageSource; CGet detail_url;
               CFindElement CLASS_NAME "swatches"]
              [start_line listing_url])
           [sample_record] eq_refl).
Defined.

(** X7 on three cards, the second without a review count. *)
Lemma parse_all_stops_at_first_failure_witness :
  exists s2 e,
    parse_all (scripted script_end) join_urls
      ([sample_card] ++ card_without_reviews :: [sample_card])
      (start (detail_without_swatches ++ detail_without_swatches
              ++ detail_without_swatches))
    = (s2, Raise e)
    /\ browser s2 = detail_without_swatches
    /\ exn_class e = AttributeError.
Proof.
  eexists _, _. split; [|split].
  - eapply (parse_all_stops_at_first_failure (scripted script_end) join_urls
              [sample_card] [sample_card] card_without_reviews);
      vm_compute; reflexivity.
  - reflexivity.
  - reflexivity.
Defined.

(** ** More on the detail page and the record *)

Section DetailMore.

Context {W : Type} (driver : WebDriver W).
Context (urljoin : string -> string -> string).


(** X9.  The navigation to the detail page lies outside the [try] block:
    whatever it raises, an element-not-found condition included, reaches the
    caller, and no record is made. *)
Theorem detail_navigation_failure (card : soup) (href : string)
  (s : state W) (w1 : W) (e : exn) :
  subscript (sel_title card) "href" = Ok href ->
  get driver (urljoin BASE_URL href) (browser s) = (w1, Raise e) ->
  let s' := mk_state w1 (calls s ++ [CGet (urljoin BASE_URL href)]) (log s) in
  product_hdd_block_prices driver urljoin card s = (s', Raise e)
  /\ parse_single_product driver urljoin card s = (s', Raise e).
Proof.
  intros Hhref Hget s'.
  assert (Hhdd : product_hdd_block_prices driver urljoin card s = (s', Raise e)).
  { unfold product_hdd_block_prices, bind, lift, driver_get, invoke.
    rewrite Hhref, Hget. reflexivity. }
  split; [exact Hhdd|].
  unfold parse_single_product, bind. rewrite Hhdd. reflexivity.
Qed.

Lemma store_all_snoc (l : list (pyval * pyfloat)) (k : pyval) (p : pyfloat)
  (m : gmap pyval pyfloat) :
  store_all (l ++ [(k, p)]) m = <[k := p]> (store_all l m).
Proof. unfold store_all. rewrite foldl_app. reflexivity. Qed.

Lemma store_all_list_to_map (l : list (pyval * pyfloat)) :
  store_all l ∅ = list_to_map (reverse l).
Proof.
  induction l as [|[k p] l IH] using rev_ind; [reflexivity|].
  rewrite store_all_snoc, reverse_app, IH. reflexivity.
Qed.

Lemma store_all_size_le (l : list (pyval * pyfloat)) :
  (size (store_all l ∅) <= length l)%nat.
Proof.
  induction l as [|[k p] l IH] using rev_ind.
  - unfold store_all. simpl. rewrite map_size_empty. lia.
  - rewrite store_all_snoc, length_app. simpl.
    destruct (store_all l ∅ !! k) as [q|] eqn:Hk.
    + rewrite map_size_insert_Some by eauto. lia.
    + rewrite map_size_insert_None by exact Hk. lia.
Qed.

(** X10.  Without any assumption on the buttons' values: when the swatch
    group is found and every button is handled without a failure, the
    mapping returned is the one in which, for each value, the price of the
    last enabled button with that value stands; it has at most as many
    entries as there are enabled buttons. *)
Theorem hdd_prices_last_value_wins (card : soup) (href : string)
  (s : state W) (w1 w2 w3 w4 : W) (sw : element) (bs : list element)
  (outs : list (option (pyval * pyfloat))) :
  subscript (sel_title card) "href" = Ok href ->
  get driver (urljoin BASE_URL href) (browser s) = (w1, Ok tt) ->
  find_element driver CLASS_NAME "swatches" w1 = (w2, Ok sw) ->
  find_elements driver sw TAG_NAME "button" w2 = (w3, Ok bs) ->
  buttons_ok driver bs w3 outs w4 ->
  exists cs m,
    product_hdd_block_prices driver urljoin card s
    = (mk_state w4 (calls s ++ cs) (log s), Ok m)
    /\ m = list_to_map (reverse (entries outs))
    /\ (size m <= length (entries outs))%nat
    /\ (forall before k p after,
          entries outs = before ++ (k, p) :: after ->
          k ∉ after.*1 ->
          m !! k = Some p).
Proof.
  intros Hhref Hget Hsw Hbs Hok.
  rewrite (hdd_prices_enter driver urljoin card href s w1 Hhref Hget).
  unfold swatch_block, driver_find_element, element_find_elements, invoke.
  simpl. rewrite Hsw. simpl. rewrite Hbs.
  destruct (swatch_loop_ok driver bs
              (mk_state w3 (((calls s ++ [CGet (urljoin BASE_URL href)])
                             ++ [CFindElement CLASS_NAME "swatches"])
                            ++ [CFindElements sw TAG_NAME "button"]) (log s))
              outs w4 ∅ Hok) as [cs Hcs].
  rewrite Hcs. simpl. rewrite <- !app_assoc.
  eexists _, (store_all (entries outs) ∅).
  split; [reflexivity|].
  split; [apply store_all_list_to_map|].
  split; [apply store_all_size_le|].
  intros before k p after Hsplit Hlast. rewrite Hsplit.
  unfold store_all. rewrite foldl_app. simpl.
  fold (store_all after (<[k := p]> (foldl (fun m' kv => <[kv.1 := kv.2]> m')
                                       ∅ before))).
  rewrite store_all_lookup_other by exact Hlast.
  apply lookup_insert_eq.
Qed.

Lemma clicks_of_app (cs ds : list call) :
  clicks_of (cs ++ ds) = clicks_of cs ++ clicks_of ds.
Proof. apply List.filter_app. Qed.

Lemma swatch_entry_clicks (b : element) (s : state W)
  (o : option (pyval * pyfloat)) (w' : W) :
  button_step driver b (browser s) (Ok o) w' ->
  exists cs,
    swatch_entry driver b s = (mk_state w' (calls s ++ cs) (log s), Ok o)
    /\ clicks_of cs = match o with Some _ => [CClick b] | None => [] end.
Proof.
  intros Hstep. inversion Hstep; subst;
    unfold swatch_entry, bind, lift, ret, element_get_property, element_click,
      driver_find_element, element_text, invoke;
    repeat match goal with
           | H : _ = (_, _) |- _ => rewrite H; clear H; simpl
           | H : truthy _ = _ |- _ => rewrite H; clear H; simpl
           | H : price_of_text _ = _ |- _ => rewrite H; clear H; simpl
           end;
    rewrite <- ?app_assoc; simpl; eexists; split; reflexivity.
Qed.

Lemma swatch_loop_clicks (bs : list element) (s : state W)
  (outs : list (option (pyval * pyfloat))) (w' : W)
  (prices : gmap pyval pyfloat) :
  buttons_ok driver bs (browser s) outs w' ->
  exists cs,
    swatch_loop driver bs prices s
    = (mk_state w' (calls s ++ cs) (log s),
       (store_all (entries outs) prices, Ok tt))
    /\ clicks_of cs = CClick <$> clicked_buttons bs outs.
Proof.
  intros Hok. remember (browser s) as w eqn:Hw.
  revert s prices Hw.
  induction Hok as [w | b bs w o w1 outs w2 Hstep Hok IH]; intros s prices ->.
  - exists []. rewrite app_nil_r. destruct s. split; reflexivity.
  - destruct (swatch_entry_clicks b s _ _ Hstep) as (cs1 & Hcs1 & Hcl1).
    simpl swatch_loop. rewrite Hcs1.
    destruct o as [[k p]|].
    + destruct (IH (mk_state w1 (calls s ++ cs1) (log s)) (<[k := p]> prices)
                  eq_refl) as (cs2 & Hcs2 & Hcl2).
      exists (cs1 ++ cs2). rewrite Hcs2, clicks_of_app, Hcl1, Hcl2.
      simpl. rewrite <- app_assoc. split; reflexivity.
    + destruct (IH (mk_state w1 (calls s ++ cs1) (log s)) prices eq_refl)
        as (cs2 & Hcs2 & Hcl2).
      exists (cs1 ++ cs2). rewrite Hcs2, clicks_of_app, Hcl1, Hcl2.
      simpl. rewrite <- app_assoc. split; reflexivity.
Qed.

Lemma clicked_buttons_length (bs : list element)
  (outs : list (option (pyval * pyfloat))) :
  length bs = length outs ->
  length (clicked_buttons bs outs) = length (entries outs).
Proof.
  revert outs. induction bs as [|b bs IH]; intros outs Hlen;
    destruct outs as [|[kv|] outs]; simpl in *; try discriminate;
    try reflexivity; injection Hlen as Hlen; rewrite (IH outs Hlen);
    reflexivity.
Qed.

Lemma buttons_ok_length (bs : list element) (w w' : W)
  (outs : list (option (pyval * pyfloat))) :
  buttons_ok driver bs w outs w' -> length bs = length outs.
Proof. induction 1; simpl; congruence. Qed.

(** X11.  On such a page the clicks made are exactly those on the enabled
    buttons, one each and in the order of the buttons; a disabled button is
    never clicked. *)
Theorem hdd_clicks_enabled_buttons (card : soup) (href : string)
  (s : state W) (w1 w2 w3 w4 : W) (sw : element) (bs : list element)
  (outs : list (option (pyval * pyfloat))) :
  subscript (sel_title card) "href" = Ok href ->
  get driver (urljoin BASE_URL href) (browser s) = (w1, Ok tt) ->
  find_element driver CLASS_NAME "swatches" w1 = (w2, Ok sw) ->
  find_elements driver sw TAG_NAME "button" w2 = (w3, Ok bs) ->
  buttons_ok driver bs w3 outs w4 ->
  exists cs m,
    product_hdd_block_prices driver urljoin card s
    = (mk_state w4 (calls s ++ cs) (log s), Ok m)
    /\ clicks_of cs = CClick <$> clicked_buttons bs outs
    /\ count_clicks cs = length (entries outs).
Proof.
  intros Hhref Hget Hsw Hbs Hok.
  rewrite (hdd_prices_enter driver urljoin card href s w1 Hhref Hget).
  unfold swatch_block, driver_find_element, element_find_elements, invoke.
  simpl. rewrite Hsw. simpl. rewrite Hbs.
  destruct (swatch_loop_clicks bs
              (mk_state w3 (((calls s ++ [CGet (urljoin BASE_URL href)])
                             ++ [CFindElement CLASS_NAME "swatches"])
                            ++ [CFindElements sw TAG_NAME "button"]) (log s))
              outs w4 ∅ Hok) as (cs & Hcs & Hcl).
  rewrite Hcs. simpl. rewrite <- !app_assoc.
  eexists _, _. split; [reflexivity|].
  assert (Hclicks :
    clicks_of ([CGet (urljoin BASE_URL href)] ++
               [CFindElement CLASS_NAME "swatches"] ++
               [CFindElements sw TAG_NAME "button"] ++ cs)
    = CClick <$> clicked_buttons bs outs).
  { rewrite !clicks_of_app. simpl. exact Hcl. }
  split; [exact Hclicks|].
  unfold count_clicks. fold (clicks_of ([CGet (urljoin BASE_URL href)] ++
               [CFindElement CLASS_NAME "swatches"] ++
               [CFindElements sw TAG_NAME "button"] ++ cs)).
  rewrite Hclicks, length_fmap.
  apply clicked_buttons_length, (buttons_ok_length _ _ _ _ Hok).
Qed.

Lemma quiet_ret {A} (a : A) : quiet (ret (W := W) a).
Proof. intros s. split; [reflexivity|]. exists []. symmetry. apply app_nil_r. Qed.

Lemma quiet_lift {A} (r : result A) : quiet (lift (W := W) r).
Proof. intros s. split; [reflexivity|]. exists []. symmetry. apply app_nil_r. Qed.

Lemma quiet_invoke {A} (c : call) (op : W -> W * result A) :
  quiet (invoke c op).
Proof.
  intros s. unfold invoke. destruct (op (browser s)) as [w r]. simpl.
  split; [reflexivity|]. exists [c]. reflexivity.
Qed.

Lemma quiet_bind {A B} (m : M W A) (k : A -> M W B) :
  quiet m -> (forall a, quiet (k a)) -> quiet (bind m k).
Proof.
  intros Hm Hk s. unfold bind. destruct (Hm s) as (Hl & cs & Hc).
  destruct (m s) as [s1 [a|e]]; simpl in *.
  - destruct (Hk a s1) as (Hl' & cs' & Hc').
    split; [congruence|]. exists (cs ++ cs').
    rewrite Hc', Hc, app_assoc. reflexivity.
  - split; [exact Hl|]. exists cs. exact Hc.
Qed.

Lemma swatch_entry_quiet (b : element) : quiet (swatch_entry driver b).
Proof.
  unfold swatch_entry. apply quiet_bind; [apply quiet_invoke|]. intros v.
  destruct (truthy v); [apply quiet_ret|].
  repeat (apply quiet_bind;
          [first [apply quiet_invoke | apply quiet_lift] | intros ?]).
  apply quiet_ret.
Qed.

Lemma swatch_loop_quiet (bs : list element) (prices : gmap pyval pyfloat)
  (s : state W) :
  log (swatch_loop driver bs prices s).1 = log s
  /\ exists cs, calls (swatch_loop driver bs prices s).1 = calls s ++ cs.
Proof.
  revert prices s. induction bs as [|b bs IH]; intros prices s; simpl.
  - split; [reflexivity|]. exists []. symmetry. apply app_nil_r.
  - destruct (swatch_entry_quiet b s) as (Hl & cs & Hc).
    destruct (swatch_entry driver b s) as [s1 [[[k v]|]|e]]; simpl in *.
    + destruct (IH (<[k := v]> prices) s1) as (Hl' & cs' & Hc').
      split; [congruence|]. exists (cs ++ cs').
      rewrite Hc', Hc, app_assoc. reflexivity.
    + destruct (IH prices s1) as (Hl' & cs' & Hc').
      split; [congruence|]. exists (cs ++ cs').
      rewrite Hc', Hc, app_assoc. reflexivity.
    + split; [exact Hl|]. exists cs. exact Hc.
Qed.

Lemma swatch_block_quiet (s : state W) :
  log (swatch_block driver s).1 = log s
  /\ exists cs, calls (swatch_block driver s).1 = calls s ++ cs.
Proof.
  unfold swatch_block.
  destruct (quiet_invoke (CFindElement CLASS_NAME "swatches")
              (find_element driver CLASS_NAME "swatches") s) as (Hl & cs & Hc).
  unfold driver_find_element.
  destruct (invoke _ _ s) as [s1 [sw|e]]; simpl in *.
  - destruct (quiet_invoke (CFindElements sw TAG_NAME "button")
                (find_elements driver sw TAG_NAME "button") s1)
      as (Hl1 & cs1 & Hc1).
    unfold element_find_elements.
    destruct (invoke _ _ s1) as [s2 [bs|e]]; simpl in *.
    + destruct (swatch_loop_quiet bs ∅ s2) as (Hl2 & cs2 & Hc2).
      split; [congruence|]. exists (cs ++ cs1 ++ cs2).
      rewrite Hc2, Hc1, Hc, !app_assoc. reflexivity.
    + split; [congruence|]. exists (cs ++ cs1).
      rewrite Hc1, Hc, app_assoc. reflexivity.
  - split; [exact Hl|]. exists cs. exact Hc.
Qed.

Lemma product_hdd_block_prices_quiet (card : soup) :
  quiet (product_hdd_block_prices driver urljoin card).
Proof.
  unfold product_hdd_block_prices.
  apply quiet_bind; [apply quiet_lift|]. intros href.
  apply quiet_bind; [apply quiet_invoke|]. intros _ s.
  pose proof (swatch_block_quiet s) as Hq.
  destruct (swatch_block driver s) as [s' [prices [[]|e]]]; simpl in *;
    [exact Hq|].
  destruct (isinstance e NoSuchElementException); exact Hq.
Qed.

Lemma parse_single_product_quiet (card : soup) :
  quiet (parse_single_product driver urljoin card).
Proof.
  unfold parse_single_product.
  apply quiet_bind; [apply product_hdd_block_prices_quiet|]. intros hdd.
  repeat (apply quiet_bind; [apply quiet_lift | intros ?]).
  apply quiet_ret.
Qed.

Lemma parse_all_quiet (cards : list soup) :
  quiet (parse_all driver urljoin cards).
Proof.
  induction cards as [|c cards IH]; simpl; [apply quiet_ret|].
  apply quiet_bind; [apply parse_single_product_quiet|]. intros x.
  apply quiet_bind; [exact IH|]. intros xs. apply quiet_ret.
Qed.

(** X12.  Parsing cards never writes to the log and never takes back a
    call: after [product_hdd_block_prices], [parse_single_product] or the
    parsing of a whole list of cards, whether they return or raise, the log
    is what it was and the calls made before are a prefix of the calls. *)
Theorem card_parsing_is_quiet :
  (forall card, quiet (product_hdd_block_prices driver urljoin card))
  /\ (forall card, quiet (parse_single_product driver urljoin card))
  /\ (forall cards, quiet (parse_all driver urljoin cards)).
Proof.
  split; [exact product_hdd_block_prices_quiet|].
  split; [exact parse_single_product_quiet|].
  exact parse_all_quiet.
Qed.

Lemma parse_single_product_fields (card : soup) (s s' : state W)
  (r : Product) :
  parse_single_product driver urljoin card s = (s', Ok r) ->
  (exists attrs, sel_title card = Some attrs
                 /\ attrs !! "title"%string = Some (title r)
                 /\ is_Some (attrs !! "href"%string))
  /\ sel_description card = Some (description r)
  /\ rating r = Z.of_nat (length (sel_stars card))
  /\ 0 <= rating r.
Proof.
  unfold parse_single_product, bind, lift, ret.
  destruct (product_hdd_block_prices driver urljoin card s) as [s1 [hdd|e]]
    eqn:Hhdd; [|discriminate].
  assert (Hhref : exists href, subscript (sel_title card) "href" = Ok href).
  { destruct (subscript (sel_title card) "href") as [href|e] eqn:Hsub;
      [eauto|].
    unfold product_hdd_block_prices, bind, lift in Hhdd.
    rewrite Hsub in Hhdd. discriminate. }
  destruct Hhref as [href Hhref].
  destruct (subscript (sel_title card) "title") as [t|] eqn:Ht; [|discriminate].
  destruct (sel_description card) as [d|]; simpl; [|discriminate].
  destruct (text_of (sel_price card)) as [pt|]; [|discriminate].
  destruct (price_of_text pt) as [p|]; [|discriminate].
  destruct (text_of (sel_review_count card)) as [rt|]; [|discriminate].
  destruct (reviews_of_text rt) as [n|]; [|discriminate].
  intros [= <- <-]. simpl.
  unfold subscript in Ht, Hhref. destruct (sel_title card) as [attrs|];
    [|discriminate].
  destruct (attrs !! "title"%string) as [t'|] eqn:Ht'; [|discriminate].
  destruct (attrs !! "href"%string) as [h|] eqn:Hh; [|discriminate].
  injection Ht as <-.
  split; [exists attrs; eauto|]. repeat split. lia.
Qed.

(** X13.  A returned record carries the card's own data: its title is the
    [title] attribute of the title element, its description the text of the
    description element, and its rating the number of star markers; the
    rating is never negative. *)
Theorem record_fields_of_card (card : soup) (s s' : state W) (r : Product) :
  parse_single_product driver urljoin card s = (s', Ok r) ->
  (exists attrs, sel_title card = Some attrs
                 /\ attrs !! "title"%string = Some (title r)
                 /\ is_Some (attrs !! "href"%string))
  /\ sel_description card = Some (description r)
  /\ rating r = Z.of_nat (length (sel_stars card))
  /\ 0 <= rating r.
Proof. apply parse_single_product_fields. Qed.

(** X14.  There is no partial record: a card on which the title, the
    description, the price or the review count was not selected makes
    [parse_single_product] raise, whatever the browser does. *)
Theorem incomplete_card_gives_no_record (card : soup) (s : state W) :
  sel_title card = None \/ sel_description card = None
  \/ sel_price card = None \/ sel_review_count card = None ->
  exists s' e, parse_single_product driver urljoin card s = (s', Raise e).
Proof.
  intros Hmissing.
  destruct (parse_single_product driver urljoin card s) as [s' [r|e]] eqn:Hrun;
    [|eauto].
  exfalso.
  destruct (parse_single_product_fields card s s' r Hrun)
    as ((attrs & Ht & _) & Hd & _).
  destruct (parse_single_product_inv driver urljoin card s s' r Hrun)
    as (hdd & pt & rt & _ & Hp & _ & Hr & _).
  destruct Hmissing as [H | [H | [H | H]]]; congruence.
Qed.

End DetailMore.


(** X9 on a navigation that raises an element-not-found condition. *)
Lemma detail_navigation_failure_witness :
  product_hdd_block_prices (scripted script_end) join_urls sample_card
    (start [RUnit (Raise no_such_element)])
  = (mk_state [] [CGet detail_url] [], Raise no_such_element)
  /\ parse_single_product (scripted script_end) join_urls sample_card
       (start [RUnit (Raise no_such_element)])
     = (mk_state [] [CGet detail_url] [], Raise no_such_element).
Proof.
  exact (detail_navigation_failure (scripted script_end) join_urls sample_card
           "test-sites/e-commerce/more/product/1"
           (start [RUnit (Raise no_such_element)]) [] no_such_element
           eq_refl eq_refl).
Defined.

(** X10 on two enabled buttons of the same value: the second price stays. *)
Lemma hdd_prices_last_value_wins_witness :
  exists cs m,
    product_hdd_block_prices (scripted script_end) join_urls sample_card
      (start detail_same_value)
    = (mk_state [] cs [], Ok m)
    /\ (size m <= 2)%nat
    /\ m !! PyStr "128" = Some (float_of_decimal false 110 0).
Proof.
  pose (outs := [Some (PyStr "128", float_of_decimal false 100 0);
                 Some (PyStr "128", float_of_decimal false 110 0)]).
  assert (Hok : buttons_ok (scripted script_end) [2%nat; 3%nat]
                  (drop 3 detail_same_value) outs []).
  { eapply buttons_ok_cons.
    { eapply step_stored; reflexivity. }
    eapply buttons_ok_cons.
    { eapply step_stored; reflexivity. }
    constructor. }
  destruct (hdd_prices_last_value_wins (scripted script_end) join_urls
              sample_card "test-sites/e-commerce/more/product/1"
              (start detail_same_value) _ _ _ [] 1%nat [2%nat; 3%nat]
              outs eq_refl eq_refl eq_refl eq_refl Hok)
    as (cs & m & Hrun & _ & Hsize & Hlast).
  exists cs, m. split; [exact Hrun|]. split; [exact Hsize|].
  apply (Hlast [(PyStr "128", float_of_decimal false 100 0)] _ _ []);
    [reflexivity|]. simpl. apply not_elem_of_nil.
Defined.

(** X11 on three buttons, the second one disabled. *)
Lemma hdd_clicks_enabled_buttons_witness :
  exists cs m,
    product_hdd_block_prices (scripted script_end) join_urls sample_card
      (start detail_three_buttons)
    = (mk_state [] cs [], Ok m)
    /\ clicks_of cs = [CClick 2%nat; CClick 4%nat]
    /\ count_clicks cs = 2%nat.
Proof.
  pose (outs := [Some (PyStr "128", float_of_decimal false 10050 (-2)); None;
                 Some (PyStr "256", float_of_decimal false 120 0)]).
  assert (Hok : buttons_ok (scripted script_end) [2%nat; 3%nat; 4%nat]
                  (drop 3 detail_three_buttons) outs []).
  { eapply buttons_ok_cons.
    { eapply step_stored; reflexivity. }
    eapply buttons_ok_cons.
    { eapply step_skipped; reflexivity. }
    eapply buttons_ok_cons.
    { eapply step_stored; reflexivity. }
    constructor. }
  exact (hdd_clicks_enabled_buttons (scripted script_end) join_urls
           sample_card "test-sites/e-commerce/more/product/1"
           (start detail_three_buttons) _ _ _ [] 1%nat [2%nat; 3%nat; 4%nat]
           outs eq_refl eq_refl eq_refl eq_refl Hok).
Defined.

(** X13 on the sample card. *)
Lemma record_fields_of_card_witness :
  (exists attrs, sel_title sample_card = Some attrs
                 /\ attrs !! "title"%string = Some "Asus VivoBook"%string
                 /\ is_Some (attrs !! "href"%string))
  /\ sel_description sample_card = Some "15.6 inch, 4GB, 500GB"%string
  /\ 3 = Z.of_nat (length (sel_stars sample_card))
  /\ 0 <= 3.
Proof.
  exact (record_fields_of_card (scripted script_end) join_urls sample_card
           (start detail_without_swatches)
           (mk_state [] [CGet detail_url; CFindElement CLASS_NAME "swatches"] [])
           sample_record eq_refl).
Defined.

(** X14 on the card without a review count. *)
Lemma incomplete_card_gives_no_record_witness :
  exists s' e,
    parse_single_product (scripted script_end) join_urls card_without_reviews
      (start detail_without_swatches)
    = (s', Raise e).
Proof.
  apply (incomplete_card_gives_no_record (scripted script_end) join_urls
           card_without_reviews (start detail_without_swatches)).
  right. right. right. reflexivity.
Defined.

(** ** More on the texts of a card *)

Section TextMore.

Lemma well_grouped_digits (l : list N) :
  Forall (fun c => is_digit c = true) l ->
  forall prev,
    match prev with Some p => (p =? 95)%N = false | None => True end ->
    well_grouped prev l = true.
Proof.
  induction 1 as [|c l Hc _ IH]; intros prev Hprev.
  - destruct prev as [p|]; simpl; [rewrite Hprev|]; reflexivity.
  - destruct (digit_is_plain c Hc) as (_ & _ & _ & _ & Hus & _).
    simpl. rewrite Hus. apply IH. exact Hus.
Qed.

Lemma filter_all {A} (p : A -> bool) (l : list A) :
  Forall (fun x => p x = true) l -> List.filter p l = l.
Proof.
  induction 1 as [|x l Hx _ IH]; simpl; [|rewrite Hx, IH]; reflexivity.
Qed.

(** [int] on a run of digits: their value, unless they are too many. *)
Lemma py_int_digits (ds : list N) :
  ds <> [] -> all_digits ds = true ->
  py_int ds = if (int_max_str_digits <? length ds)%nat
              then Raise too_many_digits
              else Ok (Z.of_N (dec_value ds)).
Proof.
  intros Hne Hds. pose proof (all_digits_Forall ds Hds) as Hall.
  unfold py_int. rewrite transform_ascii.
  2:{ eapply Forall_impl; [exact Hall|]. intros c Hc.
      apply digit_is_plain, Hc. }
  rewrite drop_while_none.
  2:{ eapply Forall_impl; [exact Hall|]. intros c Hc.
      apply digit_is_plain, Hc. }
  destruct ds as [|c ds]; [contradiction|].
  pose proof Hall as Hall'. apply Forall_cons in Hall' as [Hc _].
  destruct (digit_is_plain c Hc) as (_ & _ & _ & _ & _ & Hm & Hp & _).
  unfold take_sign. rewrite Hm, Hp. cbv beta iota zeta.
  assert (Hdu : Forall (fun x => digit_or_underscore x = true) (c :: ds)).
  { eapply Forall_impl; [exact Hall|]. intros x Hx.
    unfold digit_or_underscore. rewrite Hx. reflexivity. }
  rewrite (take_while_all _ _ Hdu), (drop_while_all _ _ Hdu).
  rewrite (well_grouped_digits _ Hall None I).
  rewrite (filter_all _ _ Hall).
  change (negb true) with false. cbv iota.
  destruct (int_max_str_digits <? length (c :: ds))%nat; reflexivity.
Qed.

Lemma split_from_leading (ws l : list N) :
  Forall (fun c => is_space c = true) ws ->
  split_from [] (ws ++ l) = split_from [] l.
Proof.
  induction 1 as [|c ws Hc _ IH]; simpl; [reflexivity|].
  rewrite Hc. exact IH.
Qed.

Lemma split_from_token (tok cur rest : list N) :
  Forall (fun c => is_space c = false) tok ->
  split_from cur (tok ++ rest) = split_from (rev tok ++ cur) rest.
Proof.
  intros H. revert cur. induction H as [|c tok Hc _ IH]; intros cur;
    [reflexivity|].
  simpl. rewrite Hc, IH, <- app_assoc. reflexivity.
Qed.

Lemma split_first_token (ws tok rest : list N) :
  Forall (fun c => is_space c = true) ws ->
  tok <> [] ->
  Forall (fun c => is_space c = false) tok ->
  match rest with [] => True | c :: _ => is_space c = true end ->
  exists more, split (ws ++ tok ++ rest) = tok :: more.
Proof.
  intros Hws Hne Htok Hrest. unfold split.
  rewrite split_from_leading by exact Hws.
  rewrite split_from_token by exact Htok. rewrite app_nil_r.
  destruct (rev tok) as [|a cur] eqn:Hrev.
  { apply (f_equal (@length N)) in Hrev. rewrite length_rev in Hrev.
    destruct tok; [contradiction | discriminate]. }
  assert (Hback : rev (a :: cur) = tok).
  { rewrite <- Hrev. apply rev_involutive. }
  destruct rest as [|c rest]; simpl.
  - exists []. simpl in Hback. rewrite Hback. reflexivity.
  - rewrite Hrest. eexists. simpl in Hback. rewrite Hback. reflexivity.
Qed.

(** X15.  The review count is the number the text starts with: leading
    whitespace is skipped, and what comes after the digits, from the next
    whitespace on, is ignored, as in ["15 reviews"].  The whitespace is that
    of [str.split], the no-break space included, and the digits are
    [0] to [9].  This holds for up to 4300 digits; with more of them [int]
    refuses the conversion and the expression raises [ValueError]. *)
Theorem reviews_first_number (t : string) (ws tok rest : list N) :
  points t = ws ++ tok ++ rest ->
  Forall (fun c => is_space c = true) ws ->
  tok <> [] ->
  all_digits tok = true ->
  match rest with [] => True | c :: _ => is_space c = true end ->
  ((length tok <= int_max_str_digits)%nat ->
   reviews_of_text t = Ok (Z.of_N (dec_value tok)))
  /\ ((int_max_str_digits < length tok)%nat ->
      reviews_of_text t = Raise too_many_digits).
Proof.
  intros Ht Hws Hne Hds Hrest.
  destruct (split_first_token ws tok rest Hws Hne) as [more Hsplit];
    [|exact Hrest|].
  { eapply Forall_impl; [apply all_digits_Forall, Hds|].
    intros c Hc. apply digit_is_plain, Hc. }
  assert (Hrev : reviews_of_text t = py_int tok).
  { unfold reviews_of_text. rewrite Ht, Hsplit. reflexivity. }
  rewrite Hrev, (py_int_digits tok Hne Hds).
  split; intros Hlen.
  - apply Nat.ltb_ge in Hlen. rewrite Hlen. reflexivity.
  - apply Nat.ltb_lt in Hlen. rewrite Hlen. reflexivity.
Qed.

Lemma replace1_filter (l : list ascii) :
  replace1 "$"%char [] l = filter (fun c => c <> "$"%char) l.
Proof.
  induction l as [|c l IH]; [reflexivity|]. simpl.
  destruct (decide (c = "$"%char)) as [->|Hne].
  - rewrite filter_cons_False by (intros H; apply H; reflexivity). exact IH.
  - rewrite filter_cons_True by exact Hne. rewrite IH. reflexivity.
Qed.

(** X17.  The dollar signs of a price text play no part, wherever they
    stand and however many there are: two texts that are equal once their
    dollar signs are dropped get the same price, or fail alike. *)
Theorem price_ignores_dollar_signs (t1 t2 : string) :
  filter (fun c => c <> "$"%char) (chars t1)
  = filter (fun c => c <> "$"%char) (chars t2) ->
  price_of_text t1 = price_of_text t2.
Proof.
  intros H. unfold price_of_text. rewrite !replace1_filter, H. reflexivity.
Qed.

End TextMore.

(** X15 on the text [  15 reviews], on [15 reviews] written with a no-break
    space, and on a count of 4301 digits. *)
Lemma reviews_first_number_witness :
  points "  15 reviews" = points "  " ++ points "15" ++ points " reviews"
  /\ reviews_of_text "  15 reviews" = Ok 15
  /\ reviews_of_text ("15" +:+ nbsp +:+ "reviews") = Ok 15
  /\ reviews_of_text many_digits = Raise too_many_digits.
Proof.
  split; [reflexivity|]. repeat apply conj.
  - apply (reviews_first_number "  15 reviews" (points "  ") (points "15")
             (points " reviews")); try reflexivity.
    + repeat constructor.
    + discriminate.
    + apply Nat.leb_le. reflexivity.
  - apply (reviews_first_number ("15" +:+ nbsp +:+ "reviews") []
             (points "15") (points (nbsp +:+ "reviews"))); try reflexivity.
    + constructor.
    + discriminate.
    + apply Nat.leb_le. reflexivity.
  - apply (reviews_first_number many_digits [] (points many_digits) []).
    + vm_compute. reflexivity.
    + constructor.
    + discriminate.
    + vm_compute. reflexivity.
    + exact I.
    + apply Nat.ltb_lt. vm_compute. reflexivity.
Defined.

(** X17 on a price written with the dollar sign behind. *)
Lemma price_ignores_dollar_signs_witness :
  price_of_text "24.99$" = price_of_text "$24.99"
  /\ price_of_text "$24.99" = Ok (float_of_decimal false 2499 (-2)).
Proof.
  split; [|vm_compute; reflexivity].
  apply (price_ignores_dollar_signs "24.99$" "$24.99"). reflexivity.
Defined.

(** ** More on the CSV files *)

Section CsvMore.

Implicit Types (fs : gmap string (list row)) (products : list Product).

(** Writing a file amounts to putting the finished file in its place. *)
Lemma write_products_to_csv_insert products filename fs :
  write_products_to_csv products filename fs
  = <[filename := csv_file products]> fs.
Proof.
  apply map_eq. intros f. destruct (decide (f = filename)) as [->|Hne].
  - rewrite lookup_insert_eq. unfold write_products_to_csv.
    rewrite (write_rows_lookup _ _ _ [CStr <$> PRODUCT_FIELDS]);
      [reflexivity|].
    rewrite (writerow_lookup _ _ _ []); [reflexivity|].
    apply lookup_insert_eq.
  - rewrite lookup_insert_ne by congruence. unfold write_products_to_csv.
    rewrite write_rows_other by exact Hne.
    rewrite writerow_other by exact Hne.
    unfold open_w. apply lookup_insert_ne. congruence.
Qed.

(** X18.  Writing a file again replaces it: what an earlier write to the
    same name left, header included, is gone, and nothing is appended. *)
Theorem csv_write_replaces products earlier filename fs :
  write_products_to_csv products filename
    (write_products_to_csv earlier filename fs)
  = write_products_to_csv products filename fs.
Proof.
  rewrite !write_products_to_csv_insert. apply insert_insert_eq.
Qed.

(** X19.  Writes to files of different names do not interfere: they can be
    made in either order, and each file holds its own records. *)
Theorem csv_writes_are_independent products1 products2 name1 name2 fs :
  name1 <> name2 ->
  let fs' := write_products_to_csv products2 name2
               (write_products_to_csv products1 name1 fs) in
  fs' = write_products_to_csv products1 name1
          (write_products_to_csv products2 name2 fs)
  /\ fs' !! name1 = Some (csv_file products1)
  /\ fs' !! name2 = Some (csv_file products2).
Proof.
  intros Hne fs'. unfold fs'. rewrite !write_products_to_csv_insert.
  split; [apply insert_insert_ne; congruence|].
  split.
  - rewrite lookup_insert_ne by congruence. apply lookup_insert_eq.
  - apply lookup_insert_eq.
Qed.

(** X20.  The file is rectangular: it has one row more than there are
    records, and every row, the header included, has six cells. *)
Theorem csv_file_shape products filename fs :
  exists rows,
    write_products_to_csv products filename fs !! filename = Some rows
    /\ length rows = S (length products)
    /\ Forall (fun r => length r = 6%nat) rows.
Proof.
  exists (csv_file products).
  rewrite write_products_to_csv_insert, lookup_insert_eq.
  split; [reflexivity|]. unfold csv_file. split.
  - simpl. rewrite length_fmap. reflexivity.
  - constructor; [reflexivity|].
    apply Forall_fmap, Forall_forall. intros p _. reflexivity.
Qed.

End CsvMore.

(** X19 on two files. *)
Lemma csv_writes_are_independent_witness :
  let fs' := write_products_to_csv [] "computers.csv"
               (write_products_to_csv [sample_record] "home.csv" ∅) in
  fs' = write_products_to_csv [sample_record] "home.csv"
          (write_products_to_csv [] "computers.csv" ∅)
  /\ fs' !! "home.csv"%string = Some (csv_file [sample_record])
  /\ fs' !! "computers.csv"%string = Some (csv_file []).
Proof.
  apply (csv_writes_are_independent [sample_record] [] "home.csv"
           "computers.csv" ∅).
  discriminate.
Defined.

(** ** The catalog run *)

Section CatalogRun.

Context {W : Type} (driver : WebDriver W).
Context (urljoin : string -> string -> string).
Context (select_thumbnails : string -> list soup).
Context (quit : W -> W * result unit).

(** X21.  Every page logs its start line first.  Without pagination that
    is all it logs; with pagination at most one line per iteration follows.
    Reading the page and parsing its cards logs nothing. *)
Theorem get_page_products_log (fuel : nat) (url : string) (paginate : bool)
  (s s' : state W) (r : result (list Product)) :
  get_page_products driver urljoin select_thumbnails fuel url paginate s
  = Some (s', r) ->
  exists lg,
    log s' = log s ++ start_line url :: lg
    /\ (length lg <= fuel)%nat
    /\ (paginate = false -> lg = []).
Proof.
  unfold get_page_products.
  destruct (get driver url (browser s)) as [w1 r1] eqn:Hget.
  rewrite (get_page_products_enter driver fuel url paginate s w1 r1 Hget).
  destruct r1 as [[]|e].
  2:{ intros [= <- <-]. exists []. simpl. split; [reflexivity|].
      split; [lia | reflexivity]. }
  assert (Hafter : forall s2 (r0 : result unit),
    log (match r0 with
         | Ok _ => (do src <~ driver_page_source driver ;;
                    parse_all driver urljoin (select_thumbnails src)) s2
         | Raise e => (s2, Raise e)
         end).1 = log s2).
  { intros s2 [[]|e]; [|reflexivity].
    apply (quiet_bind (driver_page_source driver)
             (fun src => parse_all driver urljoin (select_thumbnails src))).
    - apply quiet_invoke.
    - intros src. apply parse_all_quiet. }
  destruct paginate.
  - destruct (pagination_loop driver fuel _) as [[s2 r0]|] eqn:Hloop;
      [|discriminate].
    destruct (pagination_loop_effects driver fuel _ s2 r0 Hloop)
      as (cs & lg & _ & Hlog & _ & Hn & Hlen).
    simpl in Hlog. simpl. intros [= Hrun].
    pose proof (Hafter s2 r0) as Hl. rewrite Hrun in Hl. simpl in Hl.
    exists lg. rewrite Hl, Hlog, <- app_assoc.
    split; [reflexivity|]. split; [lia | discriminate].
  - intros [= Hrun].
    pose proof (Hafter (mk_state w1 (calls s ++ [CGet url])
                          (log s ++ [start_line url])) (Ok tt)) as Hl.
    rewrite Hrun in Hl. simpl in Hl.
    exists []. split; [exact Hl|]. split; [simpl; lia | reflexivity].
Qed.

Lemma scrape_pages_files (pages : list (string * (string * bool)))
  (fuel : nat) (s s' : state W) (fs fs' : gmap string (list row))
  (r : result unit) :
  NoDup (csv_name <$> pages) ->
  scrape_pages driver urljoin select_thumbnails fuel pages s fs
  = Some (s', fs', r) ->
  exists written rest,
    pages = written ++ rest
    /\ (forall page, page ∈ written ->
          exists ps, fs' !! csv_name page = Some (csv_file ps))
    /\ (forall page, page ∈ rest -> fs' !! csv_name page = fs !! csv_name page)
    /\ (forall f, f ∉ csv_name <$> pages -> fs' !! f = fs !! f)
    /\ (r = Ok tt -> rest = []).
Proof.
  revert s fs. induction pages as [|[name [path paginate]] pages IH];
    intros s fs Hnd.
  - intros [= <- <- <-]. exists [], []. repeat split; auto.
    intros page Hin. inversion Hin.
  - rewrite fmap_cons in Hnd. apply NoDup_cons in Hnd as [Hfresh Hnd].
    cbn [scrape_pages].
    set (p := (name, (path, paginate))) in *.
    assert (Hname : name +:+ ".csv" = csv_name p) by reflexivity.
    destruct (get_page_products driver urljoin select_thumbnails fuel
                (urljoin BASE_URL path) paginate s) as [[s1 [products|e]]|];
      [| |discriminate].
    + rewrite Hname. intros Hrun.
      destruct (IH s1 _ Hnd Hrun) as (written & rest & -> & Hw & Hr & Ho & Hall).
      assert (Hp : fs' !! csv_name p = Some (csv_file products)).
      { rewrite (Ho _ Hfresh), write_products_to_csv_insert.
        apply lookup_insert_eq. }
      exists (p :: written), rest. split; [reflexivity|].
      split; [|split; [|split]].
      * intros page Hin. apply elem_of_cons in Hin as [-> | Hin];
          [eauto | apply Hw, Hin].
      * intros page Hin. rewrite (Hr page Hin), write_products_to_csv_insert.
        apply lookup_insert_ne. intros Heq. apply Hfresh.
        rewrite Heq. apply list_elem_of_fmap. exists page.
        split; [reflexivity|]. apply elem_of_app. right. exact Hin.
      * intros f Hf. rewrite fmap_cons in Hf.
        rewrite Ho, write_products_to_csv_insert.
        -- apply lookup_insert_ne. intros <-. apply Hf. left.
        -- intros Hin. apply Hf. right. exact Hin.
      * exact Hall.
    + intros [= <- <- <-].
      exists [], (p :: pages).
      repeat split; auto; try discriminate.
      intros page Hin. inversion Hin.
Qed.

Lemma pages_info_names_distinct : NoDup (csv_name <$> pages_info).
Proof. apply (bool_decide_unpack _). vm_compute. exact I. Qed.

(** X22.  However a catalog run ends, the files it has written are those of
    the targets up to some point of the fixed order home, computers,
    laptops, tablets, phones, touch, each a finished file (the header and
    the rows of some list of records); the files of the targets after that
    point, and every file that is not a target's, are as they were.  When
    the run ends normally, all six files are written. *)
Theorem catalog_files (fuel : nat) (chrome : W) (s' : state W)
  (fs fs' : gmap string (list row)) (r : result unit) :
  get_all_products driver urljoin select_thumbnails quit fuel chrome fs
  = Some (s', fs', r) ->
  exists written rest,
    pages_info = written ++ rest
    /\ (forall page, page ∈ written ->
          exists ps, fs' !! csv_name page = Some (csv_file ps))
    /\ (forall page, page ∈ rest -> fs' !! csv_name page = fs !! csv_name page)
    /\ (forall f, f ∉ csv_name <$> pages_info -> fs' !! f = fs !! f)
    /\ (r = Ok tt -> rest = []).
Proof.
  unfold get_all_products.
  destruct (scrape_pages driver urljoin select_thumbnails fuel pages_info
              (start chrome) fs) as [[[s1 fs1] r1]|] eqn:Hrun; [|discriminate].
  destruct (quit (browser s1)) as [w q]. intros [= <- <- <-].
  destruct (scrape_pages_files pages_info fuel _ _ _ _ _
              pages_info_names_distinct Hrun)
    as (written & rest & Hsplit & Hw & Hr & Ho & Hall).
  exists written, rest. repeat split; try assumption.
  intros Hok. apply Hall. destruct q; [exact Hok | discriminate].
Qed.

Lemma scrape_pages_app (written rest : list (string * (string * bool)))
  (fuel : nat) (s s1 : state W) (fs fs1 : gmap string (list row)) :
  scrape_pages driver urljoin select_thumbnails fuel written s fs
  = Some (s1, fs1, Ok tt) ->
  scrape_pages driver urljoin select_thumbnails fuel (written ++ rest) s fs
  = scrape_pages driver urljoin select_thumbnails fuel rest s1 fs1.
Proof.
  revert s fs. induction written as [|[name [path paginate]] written IH];
    intros s fs; simpl.
  - intros [= <- <-]. reflexivity.
  - destruct (get_page_products driver urljoin select_thumbnails fuel
                (urljoin BASE_URL path) paginate s) as [[s0 [products|e]]|];
      [apply IH | discriminate | discriminate].
Qed.

(** X23.  There is no error boundary between the targets: when the targets
    before [page] have been scraped and written and [page] raises, the run
    raises the same exception after quitting the session; the files of the
    earlier targets stay written and no later target is visited. *)
Theorem catalog_stops_at_first_failure
  (written rest : list (string * (string * bool)))
  (page : string * (string * bool)) (fuel : nat) (chrome w : W)
  (s1 s2 : state W) (fs fs1 : gmap string (list row)) (e : exn) :
  pages_info = written ++ page :: rest ->
  scrape_pages driver urljoin select_thumbnails fuel written (start chrome) fs
  = Some (s1, fs1, Ok tt) ->
  get_page_products driver urljoin select_thumbnails fuel
    (urljoin BASE_URL page.2.1) page.2.2 s1
  = Some (s2, Raise e) ->
  quit (browser s2) = (w, Ok tt) ->
  get_all_products driver urljoin select_thumbnails quit fuel chrome fs
  = Some (mk_state w (calls s2) (log s2), fs1, Raise e).
Proof.
  intros Hsplit Hdone Hfail Hquit. unfold get_all_products.
  rewrite Hsplit, (scrape_pages_app written (page :: rest) fuel _ s1 fs fs1 Hdone).
  destruct page as [name [path paginate]]. simpl in *.
  rewrite Hfail, Hquit. reflexivity.
Qed.

End CatalogRun.

(** X21 on a listing that serves two clicks. *)
Lemma get_page_products_log_witness :
  exists lg,
    [start_line listing_url; complete_line]
    = [] ++ start_line listing_url :: lg
    /\ (length lg <= 3)%nat
    /\ (true = false -> lg = []).
Proof.
  exact (get_page_products_log (scripted script_end) join_urls no_cards 3
           listing_url true (start paginated_listing)
           (mk_state []
              (CGet listing_url
               :: [more_lookup; CClick 7%nat; more_lookup; CClick 7%nat;
                   more_lookup] ++ [CPageSource])
              [start_line listing_url; complete_line])
           (Ok []) eq_refl).
Defined.

(** X22 on six empty listings: six files, each with the header alone. *)
Lemma catalog_files_witness :
  exists fs',
    (exists s', get_all_products (scripted script_end) join_urls no_cards
                  quit_ok 1 empty_catalog ∅ = Some (s', fs', Ok tt))
    /\ forall page, page ∈ pages_info ->
         exists ps, fs' !! csv_name page = Some (csv_file ps).
Proof.
  destruct (get_all_products (scripted script_end) join_urls no_cards quit_ok
              1 empty_catalog ∅) as [[[s' fs'] r]|] eqn:Hrun;
    [|vm_compute in Hrun; discriminate Hrun].
  assert (Hr : r = Ok tt).
  { vm_compute in Hrun. injection Hrun as _ _ <-. reflexivity. }
  subst r. exists fs'. split; [exists s'; reflexivity|].
  destruct (catalog_files (scripted script_end) join_urls no_cards quit_ok
              1 empty_catalog s' ∅ fs' (Ok tt) Hrun)
    as (written & rest & Hsplit & Hw & _ & _ & Hall).
  rewrite (Hall eq_refl), app_nil_r in Hsplit. subst written. exact Hw.
Defined.

(** X23 on a run whose second target cannot be reached. *)
Lemma catalog_stops_at_first_failure_witness :
  exists s' fs',
    get_all_products (scripted script_end) join_urls no_cards quit_ok 1
      catalog_second_unreachable ∅
    = Some (s', fs', Raise timeout)
    /\ browser s' = []
    /\ fs' !! "home.csv"%string = Some (csv_file [])
    /\ fs' !! "computers.csv"%string = None.
Proof.
  eexists _, _. split; [|split; [|split]].
  - eapply (catalog_stops_at_first_failure (scripted script_end) join_urls
              no_cards quit_ok
              [("home", ("test-sites/e-commerce/more/", false))]%string
              (skipn 2 pages_info)
              ("computers", ("test-sites/e-commerce/more/computers", false))%string
              1 catalog_second_unreachable _ _ _ ∅ _ timeout);
      reflexivity.
  - reflexivity.
  - vm_compute. reflexivity.
  - vm_compute. reflexivity.
Defined.

(** ** Retried clicks and navigation *)

Section Retry.

Context {W : Type} (driver : WebDriver W).
Context (urljoin : string -> string -> string).

(** X24.  A click that is intercepted costs a warning and nothing else: when
    the control is found, the click on it is intercepted, and the listing
    then offers the control for [K] clicks, the loop ends normally after
    the blocked attempt and the [K] clicks, having logged the warning and
    the line that pagination is complete. *)
Theorem pagination_retries_intercepted_click (K fuel : nat) (s : state W)
  (w1 w2 : W) (el : element) (e : exn) :
  find_element driver CLASS_NAME MORE (browser s) = (w1, Ok el) ->
  click driver el w1 = (w2, Raise e) ->
  exn_class e = ElementClickInterceptedException ->
  offers driver K w2 ->
  (S K < fuel)%nat ->
  exists w' cs,
    pagination_loop driver fuel s
    = Some (mk_state w' (calls s ++ more_lookup :: CClick el :: cs)
              (log s ++ [warning_line; complete_line]),
            Ok tt)
    /\ count_clicks cs = K.
Proof.
  intros Hfind Hclick He Hoff Hfuel.
  destruct fuel as [|n]; [lia|].
  rewrite (pagination_loop_intercepted driver n s _ e
             (load_more_click driver s w1 w2 el (Raise e) Hfind Hclick) He).
  destruct (pagination_loop_offers driver K n
              (mk_state w2 (calls s ++ [more_lookup; CClick el])
                 (log s ++ [warning_line]))
              Hoff ltac:(lia)) as (w' & cs & Hrun & Hc & _).
  exists w', cs. split; [|exact Hc].
  refine (eq_trans Hrun _).
  cbn [browser calls log]. rewrite <- !app_assoc. reflexivity.
Qed.









End Retry.

(** X24 on a control that is covered once and then serves one click. *)
Lemma pagination_retries_intercepted_click_witness :
  exists w' cs,
    pagination_loop (scripted script_end) 3 (start intercepted_then_more)
    = Some (mk_state w' (more_lookup :: CClick 7%nat :: cs)
              [warning_line; complete_line],
            Ok tt)
    /\ count_clicks cs = 1%nat.
Proof.
  assert (H : offers (scripted script_end) 1 (drop 2 intercepted_then_more)).
  { simpl. do 3 eexists. split; [reflexivity|]. split; [reflexivity|].
    do 2 eexists. split; reflexivity. }
  exact (pagination_retries_intercepted_click (scripted script_end) 1 3
           (start intercepted_then_more) _ _ 7%nat click_intercepted
           eq_refl eq_refl eq_refl H (le_n 3)).
Defined.

